(** * k8s-resource-adjustment: the manifest patcher and the .env rewriter

    A shallow embedding of
      - internal/k8s/k8s.go          ([getKind], [extractorMap], [Patch]),
      - the earlier single-file main ([getK8SKind], [updateResource]),
      - scripts/get_gitlab_repos.go  ([updateEnvFile], the listing loop),
      - internal/config/config.go    ([getEnv], [Load], [Validate]),
      - internal/gitops/gitops.go and the two mains,
    and the properties of the specification that concern them.

    The YAML codec (sigs.k8s.io/yaml) and the Kubernetes API types
    (k8s.io/api v0.33.3) are libraries the program links against.  The codec
    is an interface here ([YAML]); the API types are records that keep the
    fields the program reads or writes and carry every other field in a
    finite map of leftovers.  The loader's [godotenv.Load] (v1.5.1) is
    written out over what reading the file .env gives: it never overwrites
    a variable the process environment already has. *)

From Stdlib Require Import Ascii.
From stdpp Require Import base option strings list gmap pretty.

(** ** Go values *)

(** [[]byte] and Go strings are byte sequences. *)
Abbreviation bytes := string (only parsing).

(** A Go [error] value, identified with its message ([err.Error()]). *)
Abbreviation error := string (only parsing).

(** The line feed, written "\n" in the Go sources. *)
Definition LF : string := String "010"%char "".

(** A Go result pair [([]byte, error)]: [nil] is [None] on either side. *)
Abbreviation result := (option bytes * option error)%type (only parsing).

Definition ok (b : bytes) : result := (Some b, None).
Definition failed (e : error) : result := (None, Some e).

(** What a library call hands back: its error, or its value. *)
Definition returned (r : error + bytes) : result :=
  match r with
  | inl e => failed e
  | inr b => ok b
  end.

(** ** Kubernetes API types (k8s.io/api, k8s.io/apimachinery) *)

(** Fields of an API struct that the program never names, by JSON key. *)
Abbreviation Fields := (gmap string string).

(** [resource.Quantity], identified with its canonical text ("100m"). *)
Abbreviation Quantity := string (only parsing).

(** [corev1.ResourceList]: [map[ResourceName]resource.Quantity]. *)
Abbreviation ResourceList := (gmap string Quantity).

Definition ResourceCPU : string := "cpu".
Definition ResourceMemory : string := "memory".

(** [corev1.ResourceClaim] *)
Record ResourceClaim := {
  claim_Name : string;
  claim_Request : string
}.

(** [corev1.ResourceRequirements] *)
Record ResourceRequirements := {
  Limits : ResourceList;
  Requests : ResourceList;
  Claims : list ResourceClaim
}.

(** [corev1.Container] *)
Record Container := {
  Name : string;
  Image : string;
  Resources : ResourceRequirements;
  container_fields : Fields
}.

(** [metav1.TypeMeta] *)
Record TypeMeta := {
  Kind : string;
  APIVersion : string
}.

(** [metav1.ObjectMeta] *)
Record ObjectMeta := {
  meta_Name : string;
  meta_fields : Fields
}.

(** [corev1.PodSpec] *)
Record PodSpec := {
  Containers : list Container;
  podspec_fields : Fields
}.

(** [corev1.PodTemplateSpec] *)
Record PodTemplateSpec := {
  template_ObjectMeta : ObjectMeta;
  template_Spec : PodSpec
}.

(** [corev1.Pod] *)
Record Pod := {
  pod_TypeMeta : TypeMeta;
  pod_ObjectMeta : ObjectMeta;
  pod_Spec : PodSpec;
  pod_Status : Fields
}.

(** [appsv1.DeploymentSpec], [appsv1.DaemonSetSpec], [appsv1.StatefulSetSpec]
    and [batchv1.JobSpec]: a pod template next to kind-specific fields. *)
Record WorkloadSpec := {
  Template : PodTemplateSpec;
  spec_fields : Fields
}.

(** [appsv1.Deployment], [appsv1.DaemonSet], [appsv1.StatefulSet] and
    [batchv1.Job] share this shape. *)
Record Workload := {
  wl_TypeMeta : TypeMeta;
  wl_ObjectMeta : ObjectMeta;
  wl_Spec : WorkloadSpec;
  wl_Status : Fields
}.

(** The five struct types the program instantiates its generics at. *)
Inductive GoType := TDeployment | TDaemonSet | TStatefulSet | TPod | TJob.

Definition GoStruct (T : GoType) : Type :=
  match T with
  | TPod => Pod
  | TDeployment | TDaemonSet | TStatefulSet | TJob => Workload
  end.

(** A value of interface type [any]: [nil], or a pointer [*T] with its
    dynamic type, shown with the struct it points to. *)
Inductive any :=
  | Nil
  | Ptr (T : GoType) (obj : GoStruct T).

(** Equality of API objects is decided field by field. *)
Local Ltac by_fields :=
  let x := fresh in let y := fresh in
  intros x y; destruct x, y; simpl;
  match goal with
  | |- Decision ?P =>
      refine (cast_if (decide (ltac:(
        match P with
        | ?c ?a1 = ?c ?b1 => exact (a1 = b1)
        | ?c ?a1 ?a2 = ?c ?b1 ?b2 => exact (a1 = b1 ∧ a2 = b2)
        | ?c ?a1 ?a2 ?a3 = ?c ?b1 ?b2 ?b3 =>
            exact (a1 = b1 ∧ a2 = b2 ∧ a3 = b3)
        | ?c ?a1 ?a2 ?a3 ?a4 = ?c ?b1 ?b2 ?b3 ?b4 =>
            exact (a1 = b1 ∧ a2 = b2 ∧ a3 = b3 ∧ a4 = b4)
        end))));
      [intuition congruence | intros [=]; intuition congruence]
  end.

Global Instance ResourceClaim_eq_dec : EqDecision ResourceClaim.
Proof. by_fields. Defined.
Global Instance ResourceRequirements_eq_dec : EqDecision ResourceRequirements.
Proof. by_fields. Defined.
Global Instance Container_eq_dec : EqDecision Container.
Proof. by_fields. Defined.
Global Instance TypeMeta_eq_dec : EqDecision TypeMeta.
Proof. by_fields. Defined.
Global Instance ObjectMeta_eq_dec : EqDecision ObjectMeta.
Proof. by_fields. Defined.
Global Instance PodSpec_eq_dec : EqDecision PodSpec.
Proof. by_fields. Defined.
Global Instance PodTemplateSpec_eq_dec : EqDecision PodTemplateSpec.
Proof. by_fields. Defined.
Global Instance Pod_eq_dec : EqDecision Pod.
Proof. by_fields. Defined.
Global Instance WorkloadSpec_eq_dec : EqDecision WorkloadSpec.
Proof. by_fields. Defined.
Global Instance Workload_eq_dec : EqDecision Workload.
Proof. by_fields. Defined.
Global Instance GoType_eq_dec : EqDecision GoType.
Proof. solve_decision. Defined.
Global Instance GoStruct_eq_dec T : EqDecision (GoStruct T).
Proof. destruct T; simpl; apply _. Defined.

Global Instance any_eq_dec : EqDecision any.
Proof.
  refine (λ a b,
    match a, b with
    | Nil, Nil => left eq_refl
    | Ptr T o, Ptr T' o' =>
        match decide (T = T') with
        | left e => cast_if (decide (eq_rect T GoStruct o T' e = o'))
        | right _ => right _
        end
    | _, _ => right _
    end); try discriminate; try congruence.
  - destruct e. simpl in *. congruence.
  - destruct e. simpl in *. intros Heq. injection Heq as Heq.
    apply (Eqdep_dec.inj_pair2_eq_dec _ GoType_eq_dec) in Heq. congruence.
Defined.

(** The [kind] an object carries in its own [TypeMeta]. *)
Definition typeMetaOf {T : GoType} : GoStruct T → TypeMeta :=
  match T with
  | TPod => pod_TypeMeta
  | TDeployment | TDaemonSet | TStatefulSet | TJob => wl_TypeMeta
  end.

Definition objectMetaOf {T : GoType} : GoStruct T → ObjectMeta :=
  match T with
  | TPod => pod_ObjectMeta
  | TDeployment | TDaemonSet | TStatefulSet | TJob => wl_ObjectMeta
  end.

(** ** Addressable container lists

    [o.Spec.Template.Spec.Containers] and [o.Spec.Containers] are places
    inside the decoded object: the slice read from them shares its backing
    array with the object.  A place is a reader with the writer that stores
    through the same array. *)
Record place (T : Type) := Place {
  load : T → list Container;
  store : list Container → T → T
}.
Arguments Place {T} _ _.
Arguments load {T} _ _.
Arguments store {T} _ _ _.

Definition set_pod_Containers (cs : list Container) (s : PodSpec) : PodSpec :=
  {| Containers := cs; podspec_fields := podspec_fields s |}.

Definition set_template_Spec (f : PodSpec → PodSpec) (t : PodTemplateSpec)
    : PodTemplateSpec :=
  {| template_ObjectMeta := template_ObjectMeta t;
     template_Spec := f (template_Spec t) |}.

Definition set_Template (f : PodTemplateSpec → PodTemplateSpec)
    (s : WorkloadSpec) : WorkloadSpec :=
  {| Template := f (Template s); spec_fields := spec_fields s |}.

Definition set_wl_Spec (f : WorkloadSpec → WorkloadSpec) (o : Workload)
    : Workload :=
  {| wl_TypeMeta := wl_TypeMeta o;
     wl_ObjectMeta := wl_ObjectMeta o;
     wl_Spec := f (wl_Spec o);
     wl_Status := wl_Status o |}.

Definition set_pod_Spec (f : PodSpec → PodSpec) (o : Pod) : Pod :=
  {| pod_TypeMeta := pod_TypeMeta o;
     pod_ObjectMeta := pod_ObjectMeta o;
     pod_Spec := f (pod_Spec o);
     pod_Status := pod_Status o |}.

(** [o.Spec.Template.Spec.Containers] *)
Definition Spec_Template_Spec_Containers : place Workload :=
  Place (λ o, Containers (template_Spec (Template (wl_Spec o))))
        (λ cs, set_wl_Spec (set_Template (set_template_Spec (set_pod_Containers cs)))).

(** [o.Spec.Containers] *)
Definition Spec_Containers : place Pod :=
  Place (λ o, Containers (pod_Spec o))
        (λ cs, set_pod_Spec (set_pod_Containers cs)).

(** ** sigs.k8s.io/yaml

    The codec is a library.  [Unmarshal_typeMeta] is [yaml.Unmarshal] at the
    one-field struct [typeMeta]: its error, or the [kind] the document
    carries ([None] when the document has no such key, and the field keeps
    its zero value).  [Unmarshal T] is [yaml.Unmarshal] at the API struct
    [T].  [Marshal] is [yaml.Marshal]; on failure it returns no bytes. *)
Class YAML := {
  Unmarshal_typeMeta : bytes → error + option string;
  Unmarshal : ∀ T : GoType, bytes → error + GoStruct T;
  Marshal : any → error + bytes
}.

(** What the program relies on when it feeds the codec its own output:
    both decoders read the same [kind] key, and decoding what [Marshal]
    wrote gives the object back. *)
Class YAMLRoundTrip {yaml : YAML} : Prop := {
  Unmarshal_same_kind T data k (obj : GoStruct T) :
    Unmarshal_typeMeta data = inr k →
    Unmarshal T data = inr obj →
    Kind (typeMetaOf obj) = default "" k;
  Unmarshal_Marshal T (obj : GoStruct T) out :
    Marshal (Ptr T obj) = inr out →
    Unmarshal T out = inr obj;
  Unmarshal_typeMeta_Marshal T (obj : GoStruct T) out :
    Marshal (Ptr T obj) = inr out →
    ∃ k, Unmarshal_typeMeta out = inr k ∧ default "" k = Kind (typeMetaOf obj)
}.

(** ** internal/k8s/k8s.go *)

(** [ResourceConfig] holds parsed resource quantities for CPU and memory. *)
Record ResourceConfig := {
  CPURequest : Quantity;
  MemRequest : Quantity;
  CPULimit : Quantity;
  MemLimit : Quantity
}.

Record typeMeta := { tm_Kind : string }.

(** The composite literal assigned to [containers[0].Resources]; the fields
    it does not name take their zero value. *)
Definition newResources (resCfg : ResourceConfig) : ResourceRequirements :=
  {| Requests := {[ ResourceCPU := CPURequest resCfg;
                    ResourceMemory := MemRequest resCfg ]};
     Limits := {[ ResourceCPU := CPULimit resCfg;
                  ResourceMemory := MemLimit resCfg ]};
     Claims := [] |}.

(** [c.Resources = r] *)
Definition set_Resources (r : ResourceRequirements) (c : Container) : Container :=
  {| Name := Name c; Image := Image c; Resources := r;
     container_fields := container_fields c |}.

(** What an extractor returns on success.  [containers] is the slice as it
    reads now.  The slice and the object behind [manifest] share one array,
    so [manifest] is given as a function of that array's contents: a store
    through the slice is seen by whoever reads [manifest] afterwards. *)
Record extraction := Extraction {
  manifest : list Container → any;
  containers : list Container
}.

Abbreviation containerExtractor := (bytes → error + extraction) (only parsing).

(** The multi-container notice written to standard output. *)
Definition warning (kind : string) : string :=
  "Warning: Multiple containers found in " +:+ kind +:+
  ", updating only the first one" +:+ LF.

Section k8s.
Context {yaml : YAML}.

Definition unmarshalK8sResource (T : GoType) (data : bytes)
    : error + GoStruct T :=
  match Unmarshal T data with
  | inl err => inl err
  | inr obj => inr obj
  end.

Definition getKind (data : bytes) : string * option error :=
  let tm := {| tm_Kind := "" |} in
  match Unmarshal_typeMeta data with
  | inl err => ("", Some ("YAML unmarshal error: " +:+ err))
  | inr found => (tm_Kind (from_option (λ k, {| tm_Kind := k |}) tm found), None)
  end.

Definition newExtractor (T : GoType) (getContainers : place (GoStruct T))
    : containerExtractor :=
  λ file,
    match unmarshalK8sResource T file with
    | inl err => inl err
    | inr obj =>
        inr {| manifest := λ cs, Ptr T (store getContainers cs obj);
               containers := load getContainers obj |}
    end.

Definition extractorMap : gmap string containerExtractor :=
  {[ "Deployment" := newExtractor TDeployment Spec_Template_Spec_Containers;
     "DaemonSet" := newExtractor TDaemonSet Spec_Template_Spec_Containers;
     "StatefulSet" := newExtractor TStatefulSet Spec_Template_Spec_Containers;
     "Pod" := newExtractor TPod Spec_Containers;
     "Job" := newExtractor TJob Spec_Template_Spec_Containers ]}.

(** [Patch] returns what it printed and its result pair. *)
Definition Patch (file : bytes) (resCfg : ResourceConfig)
    : list string * result :=
  match getKind file with
  | (_, Some err) => ([], failed err)
  | (kind, None) =>
      match extractorMap !! kind with
      | None => ([], failed ("unsupported kind: " +:+ kind))
      | Some extractor =>
          match extractor file with
          | inl err =>
              ([], failed ("failed to extract containers for kind " +:+ kind
                           +:+ ": " +:+ err))
          | inr ex =>
              match containers ex with
              | [] => ([], failed ("no containers found in " +:+ kind))
              | c0 :: rest =>
                  let stdout :=
                    if bool_decide (1 < length (containers ex))
                    then [warning kind] else [] in
                  let cs := set_Resources (newResources resCfg) c0 :: rest in
                  (stdout, returned (Marshal (manifest ex cs)))
              end
          end
      end
  end.

End k8s.

(** ** The earlier single-file main: [getK8SKind], [updateResource] *)

Section main.
Context {yaml : YAML}.

Definition getK8SKind (data : bytes) : string * option error :=
  let tm := {| tm_Kind := "" |} in
  match Unmarshal_typeMeta data with
  | inl err => ("", Some ("YAML unmarshal error: " +:+ err))
  | inr found => (tm_Kind (from_option (λ k, {| tm_Kind := k |}) tm found), None)
  end.

(** One arm of the [switch]: decode at [T]; on failure print and return,
    otherwise leave [containers] and [manifest] assigned as the arm does.
    [assigns] tells whether the arm has the statement [manifest = obj]. *)
Definition switchArm (T : GoType) (getContainers : place (GoStruct T))
    (assigns : bool) (file : bytes) : list string * result + extraction :=
  match unmarshalK8sResource T file with
  | inl err => inl (["Unmarshal error: " +:+ err +:+ LF], failed err)
  | inr obj =>
      inr {| containers := load getContainers obj;
             manifest := λ cs,
               if assigns then Ptr T (store getContainers cs obj) else Nil |}
  end.

(** [switch kind { ... }]: the early return of an arm, or the two
    variables [manifest] and [containers] after it. *)
Definition switchKind (kind : string) (file : bytes)
    : list string * result + extraction :=
  if decide (kind = "Deployment") then
    switchArm TDeployment Spec_Template_Spec_Containers true file
  else if decide (kind = "DaemonSet") then
    switchArm TDaemonSet Spec_Template_Spec_Containers true file
  else if decide (kind = "StatefulSet") then
    switchArm TStatefulSet Spec_Template_Spec_Containers true file
  else if decide (kind = "Pod") then
    switchArm TPod Spec_Containers false file
  else if decide (kind = "Job") then
    switchArm TJob Spec_Template_Spec_Containers true file
  else
    inl ([], failed ("Unsupported kind: " +:+ kind)).

Definition updateResource (file : bytes) (resCfg : ResourceConfig)
    : list string * result :=
  match getK8SKind file with
  | (_, Some err) =>
      (["Error getting Kubernetes kind: " +:+ err +:+ LF], failed err)
  | (kind, None) =>
      match switchKind kind file with
      | inl early => early
      | inr vars =>
          match containers vars with
          | [] => ([], failed ("No containers found in " +:+ kind))
          | c0 :: rest =>
              let stdout :=
                if bool_decide (1 < length (containers vars))
                then [warning kind] else [] in
              let cs := set_Resources (newResources resCfg) c0 :: rest in
              match Marshal (manifest vars cs) with
              | inl err =>
                  (stdout ++ ["YAML marshal error: " +:+ err +:+ LF], failed err)
              | inr v => (stdout, ok v)
              end
          end
      end
  end.

End main.

(** ** scripts/get_gitlab_repos.go: [updateEnvFile] *)

(** [strings.Split(s, sep)] at a one-byte separator. *)
Fixpoint Split (s : string) (sep : ascii) : list string :=
  match s with
  | EmptyString => [""]
  | String c s' =>
      if Ascii.eqb c sep then "" :: Split s' sep
      else match Split s' sep with
           | line :: lines => String c line :: lines
           | [] => [String c ""]
           end
  end.

(** [strings.HasPrefix(s, prefix)] *)
Definition HasPrefix (s prefix : string) : bool := String.prefix prefix s.

(** [strings.Join(elems, sep)] *)
Fixpoint Join (elems : list string) (sep : string) : string :=
  match elems with
  | [] => ""
  | [e] => e
  | e :: rest => e +:+ sep +:+ Join rest sep
  end.

(** The first loop: the lines of the old file that are not empty. *)
Definition nonEmpty (lines : list string) : list string :=
  filter (λ line, line ≠ "") lines.

(** The second loop: overwrite the first line that starts with [key=] and
    stop; the flag is [found]. *)
Fixpoint replaceFirst (key newLine : string) (lines : list string)
    : list string * bool :=
  match lines with
  | [] => ([], false)
  | line :: rest =>
      if HasPrefix line (key +:+ "=") then (newLine :: rest, true)
      else let '(rest', found) := replaceFirst key newLine rest in
           (line :: rest', found)
  end.

(** The slice [lines] as it stands before the final [strings.Join]. *)
Definition envLines (key value : string) (input : string) : list string :=
  let lines := Split input "010" in
  let newLine := key +:+ "=" +:+ value in
  let lines := nonEmpty lines in
  let '(lines, found) := replaceFirst key newLine lines in
  if found then lines else lines ++ [newLine].

(** The text handed to [os.WriteFile]. *)
Definition envOutput (key value : string) (input : string) : string :=
  Join (envLines key value input) LF +:+ LF.

(** What [os.ReadFile] gave. *)
Inductive readFile :=
  | Read (content : bytes)
  | NotExist
  | ReadFailed (err : error).

(** [updateEnvFile], given what [os.ReadFile] gave and the error of
    [os.WriteFile] if any: the fatal log line, or the new content of the
    file. *)
Definition updateEnvFile (key value : string) (r : readFile)
    (writeErr : option error) : error + bytes :=
  let written input :=
    match writeErr with
    | Some err => inl ("Failed to write to .env file: " +:+ err)
    | None => inr (envOutput key value input)
    end in
  match r with
  | ReadFailed err => inl ("Failed to read .env file: " +:+ err)
  | NotExist => written ""
  | Read input => written input
  end.

(** How many line feeds a text ends with. *)
Fixpoint trailingLFs (s : string) : nat :=
  match s with
  | EmptyString => 0
  | String c s' =>
      let n := trailingLFs s' in
      if Ascii.eqb c "010" && (n =? String.length s') then S n else n
  end.

(** Index of the first line that starts with [key=]. *)
Fixpoint firstWithKey (key : string) (lines : list string) : option nat :=
  match lines with
  | [] => None
  | line :: rest =>
      if HasPrefix line (key +:+ "=") then Some 0
      else S <$> firstWithKey key rest
  end.

(** ** A table codec over the documents of k8s_test.go and five more

    A finite stand-in for the library: it decodes the documents listed
    below, encodes the objects listed below, and fails on everything else.
    It instantiates [YAML] wherever a statement is evaluated on a concrete
    document. *)

Module fixture.

(** The quantities of [TestDefaultResourcePatcher_Patch]. *)
Definition resCfg : ResourceConfig :=
  {| CPURequest := "100m"; MemRequest := "128Mi";
     CPULimit := "200m"; MemLimit := "256Mi" |}.

Definition noResources : ResourceRequirements :=
  {| Limits := ∅; Requests := ∅; Claims := [] |}.

Definition noMeta : ObjectMeta := {| meta_Name := ""; meta_fields := ∅ |}.

Definition workload (kind name : string) (cs : list Container) : Workload :=
  {| wl_TypeMeta := {| Kind := kind; APIVersion := "apps/v1" |};
     wl_ObjectMeta := {| meta_Name := name; meta_fields := ∅ |};
     wl_Spec := {| Template := {| template_ObjectMeta := noMeta;
                                  template_Spec := {| Containers := cs;
                                                      podspec_fields := ∅ |} |};
                   spec_fields := ∅ |};
     wl_Status := ∅ |}.

Definition testContainer : Container :=
  {| Name := "test-container"; Image := "nginx";
     Resources := noResources; container_fields := ∅ |}.

(** "valid deployment" *)
Definition deploymentYAML : bytes := "
apiVersion: apps/v1
kind: Deployment
metadata:
  name: test-deployment
spec:
  template:
    spec:
      containers:
      - name: test-container
        image: nginx".

Definition deployment : Workload :=
  workload "Deployment" "test-deployment" [testContainer].

(** "unsupported kind" *)
Definition serviceYAML : bytes := "
apiVersion: v1
kind: Service
metadata:
  name: test-service".

(** "invalid yaml" *)
Definition invalidYAML : bytes := "invalid: [not yaml".

(** "no containers" *)
Definition noContainersYAML : bytes := "
apiVersion: apps/v1
kind: Deployment
metadata:
  name: test-deployment
spec:
  template:
    spec:
      containers: []".

Definition noContainers : Workload :=
  workload "Deployment" "test-deployment" [].

(** A bare Pod with one container. *)
Definition podYAML : bytes := "
apiVersion: v1
kind: Pod
metadata:
  name: test-pod
spec:
  containers:
  - name: test-container
    image: nginx".

Definition pod : Pod :=
  {| pod_TypeMeta := {| Kind := "Pod"; APIVersion := "v1" |};
     pod_ObjectMeta := {| meta_Name := "test-pod"; meta_fields := ∅ |};
     pod_Spec := {| Containers := [testContainer]; podspec_fields := ∅ |};
     pod_Status := ∅ |}.

(** A document without a [kind] key. *)
Definition noKindYAML : bytes := "
apiVersion: v1
metadata:
  name: test-config".

(** Well-formed YAML whose [kind] is a sequence. *)
Definition listKindYAML : bytes := "
apiVersion: apps/v1
kind: [Deployment]
metadata:
  name: test-deployment".

(** Well-formed YAML whose root is a sequence. *)
Definition listRootYAML : bytes := "
- apiVersion: v1
  metadata:
    name: test-config".

(** A Deployment with two containers; the first one already carries
    requests, limits and a resource claim. *)
Definition sidecarYAML : bytes := "
apiVersion: apps/v1
kind: Deployment
metadata:
  name: test-deployment
spec:
  template:
    spec:
      containers:
      - name: app
        image: nginx
        imagePullPolicy: Always
        resources:
          requests:
            cpu: 50m
            ephemeral-storage: 1Gi
          limits:
            memory: 64Mi
          claims:
          - name: gpu
      - name: sidecar
        image: envoy
        resources:
          limits:
            cpu: 10m".

Definition app : Container :=
  {| Name := "app"; Image := "nginx";
     Resources :=
       {| Requests := {[ "cpu" := "50m"; "ephemeral-storage" := "1Gi" ]};
          Limits := {[ "memory" := "64Mi" ]};
          Claims := [ {| claim_Name := "gpu"; claim_Request := "" |} ] |};
     container_fields := {[ "imagePullPolicy" := "Always" ]} |}.

Definition sidecar : Container :=
  {| Name := "sidecar"; Image := "envoy";
     Resources := {| Requests := ∅; Limits := {[ "cpu" := "10m" ]};
                     Claims := [] |};
     container_fields := ∅ |}.

Definition withSidecar : Workload :=
  workload "Deployment" "test-deployment" [app; sidecar].

(** The objects after [containers[0].Resources] has been overwritten
    with the quantities of [resCfg], written out key by key. *)
Definition patchedResources : ResourceRequirements :=
  {| Requests := {[ "cpu" := "100m"; "memory" := "128Mi" ]};
     Limits := {[ "cpu" := "200m"; "memory" := "256Mi" ]};
     Claims := [] |}.

Definition patched (c : Container) : Container :=
  {| Name := Name c; Image := Image c; Resources := patchedResources;
     container_fields := container_fields c |}.

Definition deployment' : Workload :=
  workload "Deployment" "test-deployment" [patched testContainer].

Definition pod' : Pod :=
  set_pod_Spec (set_pod_Containers [patched testContainer]) pod.

Definition withSidecar' : Workload :=
  workload "Deployment" "test-deployment" [patched app; sidecar].

Definition deploymentYAML' : bytes := "apiVersion: apps/v1
kind: Deployment
metadata:
  creationTimestamp: null
  name: test-deployment
spec:
  selector: null
  strategy: {}
  template:
    metadata:
      creationTimestamp: null
    spec:
      containers:
      - image: nginx
        name: test-container
        resources:
          limits:
            cpu: 200m
            memory: 256Mi
          requests:
            cpu: 100m
            memory: 128Mi
status: {}
".

Definition podYAML' : bytes := "apiVersion: v1
kind: Pod
metadata:
  creationTimestamp: null
  name: test-pod
spec:
  containers:
  - image: nginx
    name: test-container
    resources:
      limits:
        cpu: 200m
        memory: 256Mi
      requests:
        cpu: 100m
        memory: 128Mi
status: {}
".

Definition sidecarYAML' : bytes := "apiVersion: apps/v1
kind: Deployment
metadata:
  creationTimestamp: null
  name: test-deployment
spec:
  selector: null
  strategy: {}
  template:
    metadata:
      creationTimestamp: null
    spec:
      containers:
      - image: nginx
        imagePullPolicy: Always
        name: app
        resources:
          limits:
            cpu: 200m
            memory: 256Mi
          requests:
            cpu: 100m
            memory: 128Mi
      - image: envoy
        name: sidecar
        resources:
          limits:
            cpu: 10m
status: {}
".

(** What [yaml.Unmarshal] finds at the one-field struct [typeMeta]. *)
Definition kinds : list (bytes * (error + option string)) :=
  [ (deploymentYAML, inr (Some "Deployment"));
    (serviceYAML, inr (Some "Service"));
    (invalidYAML,
     inl "error converting YAML to JSON: yaml: line 1: did not find expected ',' or ']'");
    (noContainersYAML, inr (Some "Deployment"));
    (podYAML, inr (Some "Pod"));
    (noKindYAML, inr None);
    (listKindYAML,
     inl "error unmarshaling JSON: while decoding JSON: json: cannot unmarshal array into Go struct field typeMeta.Kind of type string");
    (listRootYAML,
     inl "error unmarshaling JSON: while decoding JSON: json: cannot unmarshal array into Go value of type k8s.typeMeta");
    (sidecarYAML, inr (Some "Deployment"));
    (deploymentYAML', inr (Some "Deployment"));
    (podYAML', inr (Some "Pod"));
    (sidecarYAML', inr (Some "Deployment")) ].

(** What [yaml.Unmarshal] decodes at the API structs. *)
Definition objects : list (bytes * any) :=
  [ (deploymentYAML, Ptr TDeployment deployment);
    (noContainersYAML, Ptr TDeployment noContainers);
    (podYAML, Ptr TPod pod);
    (sidecarYAML, Ptr TDeployment withSidecar);
    (deploymentYAML', Ptr TDeployment deployment');
    (podYAML', Ptr TPod pod');
    (sidecarYAML', Ptr TDeployment withSidecar') ].

(** What [yaml.Marshal] writes. *)
Definition texts : list (any * bytes) :=
  [ (Nil, "null" +:+ LF);
    (Ptr TDeployment deployment', deploymentYAML');
    (Ptr TPod pod', podYAML');
    (Ptr TDeployment withSidecar', sidecarYAML') ].

Fixpoint assoc {K V} `{EqDecision K} (k : K) (table : list (K * V)) : option V :=
  match table with
  | [] => None
  | (k', v) :: rest => if decide (k = k') then Some v else assoc k rest
  end.

(** The pointer's struct, when its dynamic type is [T]. *)
Definition deref (T : GoType) (a : any) : option (GoStruct T) :=
  match a with
  | Nil => None
  | Ptr T' obj =>
      match decide (T' = T) with
      | left e => Some (eq_rect T' GoStruct obj T e)
      | right _ => None
      end
  end.

Definition codec : YAML :=
  {| Unmarshal_typeMeta data :=
       default (inl "document not in the table") (assoc data kinds);
     Unmarshal T data :=
       match assoc data objects ≫= deref T with
       | Some obj => inr obj
       | None => inl "document not in the table"
       end;
     Marshal a :=
       match assoc a texts with
       | Some out => inr out
       | None => inl "object not in the table"
       end |}.

End fixture.

(** ** The specification's reading of the patcher

    The closed enumeration of kinds, the path to the container list of each
    kind, and the object a successful patch is to serialise, as the
    specification words them.  The theorems below compare [Patch] and
    [updateResource] with these. *)

Definition kindName (T : GoType) : string :=
  match T with
  | TDeployment => "Deployment"
  | TDaemonSet => "DaemonSet"
  | TStatefulSet => "StatefulSet"
  | TPod => "Pod"
  | TJob => "Job"
  end.

Definition supportedKinds : list string :=
  ["Deployment"; "DaemonSet"; "StatefulSet"; "Pod"; "Job"].

(** [spec.template.spec.containers], or [spec.containers] for a Pod. *)
Definition containersOf (T : GoType) : place (GoStruct T) :=
  match T with
  | TPod => Spec_Containers
  | TDeployment => Spec_Template_Spec_Containers
  | TDaemonSet => Spec_Template_Spec_Containers
  | TStatefulSet => Spec_Template_Spec_Containers
  | TJob => Spec_Template_Spec_Containers
  end.

(** Container 0 with its resource requirements replaced, the rest of the
    list as it was. *)
Definition patchFirst (r : ResourceRequirements) (cs : list Container)
    : list Container :=
  match cs with
  | [] => []
  | c0 :: rest => set_Resources r c0 :: rest
  end.

(** The object with container 0's resource requirements set to [r]. *)
Definition withResources (T : GoType) (r : ResourceRequirements)
    (obj : GoStruct T) : GoStruct T :=
  store (containersOf T) (patchFirst r (load (containersOf T) obj)) obj.

(** What the patcher prints for a container list. *)
Definition notice (kind : string) (cs : list Container) : list string :=
  if bool_decide (1 < length cs) then [warning kind] else [].

(** Container 0 of a document decoded at [T]. *)
Definition container0 {yaml : YAML} (T : GoType) (doc : bytes) : option Container :=
  match Unmarshal T doc with
  | inr obj => head (load (containersOf T) obj)
  | inl _ => None
  end.

(** Container 1 of a document decoded at [T]. *)
Definition container1 {yaml : YAML} (T : GoType) (doc : bytes) : option Container :=
  match Unmarshal T doc with
  | inr obj => load (containersOf T) obj !! 1
  | inl _ => None
  end.

(** The library decodes in two stages and names the one that failed:
    "error converting YAML to JSON: ..." when it could not read the bytes
    as YAML, "error unmarshaling JSON: ..." when it could, but what it read
    does not fit the Go struct.  A document is parseable when the first
    stage did not fail. *)
Definition parseable {yaml : YAML} (data : bytes) : bool :=
  match Unmarshal_typeMeta data with
  | inl err => negb (HasPrefix err "error converting YAML to JSON: ")
  | inr _ => true
  end.

(** The top-level entries of a document as it is written: its lines that
    are neither empty nor indented. *)
Definition topLevel (doc : bytes) : list string :=
  filter (λ line, line ≠ "" ∧ HasPrefix line " " = false) (Split doc "010").

Section runs.
Context {yaml : YAML}.

(** The five ways a call of the patcher can go, with what it prints and
    returns on each. *)
Inductive PatchRun (file : bytes) (rc : ResourceConfig)
    : list string * result → Prop :=
  | run_malformed err :
      Unmarshal_typeMeta file = inl err →
      PatchRun file rc ([], failed ("YAML unmarshal error: " +:+ err))
  | run_unsupported found :
      Unmarshal_typeMeta file = inr found →
      default "" found ∉ supportedKinds →
      PatchRun file rc
        ([], failed ("unsupported kind: " +:+ default "" found))
  | run_extract_error found T err :
      Unmarshal_typeMeta file = inr found →
      default "" found = kindName T →
      Unmarshal T file = inl err →
      PatchRun file rc
        ([], failed ("failed to extract containers for kind " +:+ kindName T
                     +:+ ": " +:+ err))
  | run_no_containers found T (obj : GoStruct T) :
      Unmarshal_typeMeta file = inr found →
      default "" found = kindName T →
      Unmarshal T file = inr obj →
      load (containersOf T) obj = [] →
      PatchRun file rc
        ([], failed ("no containers found in " +:+ kindName T))
  | run_marshal found T (obj : GoStruct T) c0 rest :
      Unmarshal_typeMeta file = inr found →
      default "" found = kindName T →
      Unmarshal T file = inr obj →
      load (containersOf T) obj = c0 :: rest →
      PatchRun file rc
        (notice (kindName T) (c0 :: rest),
         returned (Marshal (Ptr T (withResources T (newResources rc) obj)))).

End runs.

(** How often a byte occurs in a text. *)
Fixpoint occurrences (c : ascii) (s : string) : nat :=
  match s with
  | EmptyString => 0
  | String c' s' => (if Ascii.eqb c' c then 1 else 0) + occurrences c s'
  end.

(** ** os and github.com/joho/godotenv v1.5.1 *)

(** The process environment: what [os.LookupEnv] reads and [os.Setenv]
    writes. *)
Abbreviation Environ := (gmap string string).

(** [os.Setenv] refuses an empty key, a key with an equals sign or a NUL
    byte, and a value with a NUL byte. *)
Definition settable (key value : string) : bool :=
  bool_decide (key ≠ "")
  && (occurrences "=" key =? 0) && (occurrences "000" key =? 0)
  && (occurrences "000" value =? 0).

Definition Setenv (key value : string) (env : Environ) : option error * Environ :=
  if settable key value then (None, <[key := value]> env)
  else (Some "setenv: invalid argument", env).

(** [godotenv.Load()], given what reading and parsing the file .env gave.
    When that failed, the error is returned and the environment is left
    alone.  Otherwise the loop over the parsed entries sets every variable
    that the environment did not have when [Load] was called, a variable
    set to the empty text included among those it has, and drops the error
    of [os.Setenv]. *)
Definition godotenv_Load (dotenv : error + Environ) (env : Environ)
    : option error * Environ :=
  match dotenv with
  | inl err => (Some err, env)
  | inr envMap =>
      (None,
       map_fold (λ key value env',
                   if decide (is_Some (env !! key)) then env'
                   else (Setenv key value env').2)
                env envMap)
  end.

(** ** internal/config/config.go: the environment loader *)

Module config.

Record Config := {
  Env : string;
  BaseURL : string;
  Branch : string;
  RepoURLs : list string;
  CPULimit : string;
  MemLimit : string;
  CPURequest : string;
  MemRequest : string
}.

Definition getEnv (env : Environ) (key defaultVal : string) : string :=
  match env !! key with
  | Some val => if decide (val ≠ "") then val else defaultVal
  | None => defaultVal
  end.

Section loader.
(** [strings.TrimSpace], a library function. *)
Variable TrimSpace : string → string.

(** [EnvConfigLoader.Load], given what the file .env gave and the process
    environment; [getConfigFromEnv] of the single-file main has the same
    body. *)
Definition Load (dotenv : error + Environ) (env : Environ) : Config :=
  let env := (godotenv_Load dotenv env).2 in
  let repoURLs := getEnv env "REPO_URLS" "__URL_1__,__URL_2__" in
  let urls := foldl (λ urls url, urls ++ [TrimSpace url]) [] (Split repoURLs ",") in
  {| Env := getEnv env "ENV" "__ENV__";
     BaseURL := getEnv env "BASE_URL" "__GIT_URL__";
     Branch := getEnv env "BRANCH" "__BRANCH__";
     RepoURLs := urls;
     CPULimit := getEnv env "CPU_LIMIT" "20m";
     MemLimit := getEnv env "MEM_LIMIT" "32Mi";
     CPURequest := getEnv env "CPU_REQUEST" "10m";
     MemRequest := getEnv env "MEM_REQUEST" "16Mi" |}.

End loader.

End config.

(** ** internal/config/config.go: the settings file and [Validate] *)

Module configfile.

Record GitConfig := {
  BaseURL : string;
  Branch : string
}.

Record ResourceLimits := {
  CPU : string;
  Memory : string
}.

Record ResourcesConfig := {
  Limits : ResourceLimits;
  Requests : ResourceLimits
}.

Record Config := {
  Git : GitConfig;
  Repositories : list string;
  Environment : string;
  Resources : ResourcesConfig
}.

(** The loop over [c.Repositories], entered at index [i]: the index of the
    first empty entry. *)
Fixpoint firstEmpty (i : nat) (repos : list string) : option nat :=
  match repos with
  | [] => None
  | repo :: rest => if decide (repo = "") then Some i else firstEmpty (S i) rest
  end.

(** [Config.Validate]: the error, or [None] for nil. *)
Definition Validate (c : Config) : option error :=
  if decide (BaseURL (Git c) = "") then
    Some "git base_url cannot be empty"
  else if decide (Branch (Git c) = "") then
    Some "git branch cannot be empty"
  else if decide (length (Repositories c) = 0) then
    Some "at least one repository must be configured"
  else
    match firstEmpty 0 (Repositories c) with
    | Some i => Some ("repository[" +:+ pretty i +:+ "] path cannot be empty")
    | None =>
        if decide (CPU (Limits (Resources c)) = ""
                   ∧ Memory (Limits (Resources c)) = ""
                   ∧ CPU (Requests (Resources c)) = ""
                   ∧ Memory (Requests (Resources c)) = "")
        then Some "at least one resource configuration must be set"
        else None
    end.

End configfile.

(** A stand-in for [strings.TrimSpace] on ASCII text: it drops leading and
    trailing tabs, line feeds, vertical tabs, form feeds, carriage returns
    and spaces, which is what the library does when the text has no byte
    above 127. *)
Definition asciiSpace (c : ascii) : bool :=
  bool_decide (c ∈ ["009"; "010"; "011"; "012"; "013"; " "]%char).

Fixpoint trimLeft (s : string) : string :=
  match s with
  | EmptyString => ""
  | String c s' => if asciiSpace c then trimLeft s' else s
  end.

Fixpoint trimRight (s : string) : string :=
  match s with
  | EmptyString => ""
  | String c s' =>
      match trimRight s' with
      | EmptyString => if asciiSpace c then "" else String c ""
      | t => String c t
      end
  end.

Definition asciiTrimSpace (s : string) : string := trimRight (trimLeft s).

(** ** go-git, go-billy and io

    The calls that gitops.go and the two mains make into libraries.  Each
    acts on the world [W] (remotes, in-memory storage and file systems,
    clock) and hands back its Go result.  [Worktree_Commit] takes the
    message, the author's name and the author's e-mail. *)
Class GoGit (W Repository Worktree File : Type) := {
  git_Clone : string → string → W → (error + Repository) * W;
  Repository_Worktree : Repository → W → (error + Worktree) * W;
  Worktree_Add : Worktree → string → W → option error * W;
  Worktree_Commit : Worktree → string → string → string → W → option error * W;
  Repository_Push : Repository → W → option error * W;
  Filesystem_Open : Worktree → string → W → (error + File) * W;
  Filesystem_Create : Worktree → string → W → (error + File) * W;
  io_ReadAll : File → W → (error + bytes) * W;
  File_Write : File → bytes → W → option error * W;
  File_Close : File → W → W
}.

(** ** internal/gitops/gitops.go *)

Section gitops.
Context {W Repository Worktree File : Type}.
Context {git : GoGit W Repository Worktree File}.

Definition CloneAndWorktree (url branch : string) (w : W)
    : (error + Worktree * Repository) * W :=
  let '(r, w) := git_Clone url branch w in
  match r with
  | inl err => (inl err, w)
  | inr repo =>
      let '(r, w) := Repository_Worktree repo w in
      match r with
      | inl err => (inl err, w)
      | inr worktree => (inr (worktree, repo), w)
      end
  end.

Definition CommitAndPush (repo : Repository) (worktree : Worktree)
    (filePath : string) (w : W) : option error * W :=
  let '(err, w) := Worktree_Add worktree filePath w in
  match err with
  | Some err => (Some err, w)
  | None =>
      let '(err, w) :=
        Worktree_Commit worktree "Update set_resources.yaml via automation"
          "AutoUpdater" "autoupdater@example.com" w in
      match err with
      | Some err => (Some err, w)
      | None => Repository_Push repo w
      end
  end.

(** The deferred [file.Close()] runs on both returns that follow [Open]. *)
Definition GetFile (worktree : Worktree) (path : string) (w : W)
    : (error + bytes) * W :=
  let '(r, w) := Filesystem_Open worktree path w in
  match r with
  | inl err => (inl err, w)
  | inr file =>
      let '(r, w) := io_ReadAll file w in
      let w := File_Close file w in
      match r with
      | inl err => (inl err, w)
      | inr data => (inr data, w)
      end
  end.

End gitops.

(** ** cmd/main.go

    [main] wires [config.EnvConfigLoader], [gitops.InMemoryGitRepoManager]
    and the patcher of internal/k8s together; the patcher's method is the
    [Patch] above. *)

(** A run of a program fragment: from a world and the text printed so
    far to a panic value or a result, the world and the text printed. *)
Definition IO (W A : Type) : Type :=
  W * list string → (string + A) * (W * list string).

Global Instance IO_ret {W} : MRet (IO W) := λ A x st, (inr x, st).

Global Instance IO_bind {W} : MBind (IO W) := λ A B k m st,
  match m st with
  | (inl v, st) => (inl v, st)
  | (inr x, st) => k x st
  end.

(** [fmt.Printf], [fmt.Println]: one entry per call. *)
Definition print {W} (text : string) : IO W unit :=
  λ '(w, stdout), (inr (), (w, stdout ++ [text])).

(** What a callee printed. *)
Definition printed {W} (texts : list string) : IO W unit :=
  λ '(w, stdout), (inr (), (w, stdout ++ texts)).

(** A call that acts on the world. *)
Definition call {W A} (f : W → A * W) : IO W A :=
  λ '(w, stdout), let '(x, w) := f w in (inr x, (w, stdout)).

Definition panic {W A} (v : string) : IO W A := λ st, (inl v, st).

(** [for _, x := range xs { body }] *)
Fixpoint forRange {W X} (xs : list X) (body : X → IO W unit) : IO W unit :=
  match xs with
  | [] => mret ()
  | x :: xs => body x;; forRange xs body
  end.

Section cmd_main.
Context {W Repository Worktree File : Type}.
Context {git : GoGit W Repository Worktree File}.
Context {yaml : YAML}.
(** [strings.TrimSpace] and [filepath.Join], library functions, and
    [resource.MustParse], which panics with the value on the left. *)
Variable TrimSpace : string → string.
Variable filepath_Join : list string → string.
Variable MustParse : string → string + Quantity.

Definition mustParse (str : string) : IO W Quantity :=
  match MustParse str with
  | inl v => panic v
  | inr q => mret q
  end.

(** The body of the loop in [main]; every [continue] ends it. *)
Definition processRepository (cfg : config.Config) (url : string) : IO W unit :=
  print ("======== Processing Repository: " +:+ url +:+ " ========" +:+ LF);;
  let repoURL := config.BaseURL cfg +:+ "/" +:+ url in
  r ← call (CloneAndWorktree repoURL (config.Branch cfg));
  match r with
  | inl err => print ("Failed to clone repo: " +:+ err +:+ LF)
  | inr (worktree, repo) =>
      let targetPath :=
        filepath_Join ["overlays"; config.Env cfg; "patches"; "set_resources.yaml"] in
      r ← call (GetFile worktree targetPath);
      match r with
      | inl err => print ("Failed to read file: " +:+ err +:+ LF)
      | inr file =>
          cpuRequest ← mustParse (config.CPURequest cfg);
          memRequest ← mustParse (config.MemRequest cfg);
          cpuLimit ← mustParse (config.CPULimit cfg);
          memLimit ← mustParse (config.MemLimit cfg);
          let '(stdout, (manifest, err)) :=
            Patch file {| CPURequest := cpuRequest; MemRequest := memRequest;
                          CPULimit := cpuLimit; MemLimit := memLimit |} in
          printed stdout;;
          match err with
          | Some err => print ("Failed to update resource: " +:+ err +:+ LF)
          | None =>
              r ← call (Filesystem_Create worktree targetPath);
              match r with
              | inl err =>
                  print ("Failed to open file for writing: " +:+ err +:+ LF)
              | inr f =>
                  err ← call (File_Write f (default "" manifest));
                  match err with
                  | Some err =>
                      print ("Failed to write updated YAML: " +:+ err +:+ LF);;
                      call (λ w, ((), File_Close f w))
                  | None =>
                      call (λ w, ((), File_Close f w));;
                      err ← call (CommitAndPush repo worktree targetPath);
                      match err with
                      | Some err =>
                          print ("Failed to commit/push: " +:+ err +:+ LF)
                      | None =>
                          print ("Updated file content and pushed to remote!!!"
                                 +:+ LF)
                      end
                  end
              end
          end
      end
  end.

(** [main], from what the file .env gives and the process environment. *)
Definition main (dotenv : error + Environ) (env : Environ) : IO W unit :=
  let cfg := config.Load TrimSpace dotenv env in
  forRange (config.RepoURLs cfg) (processRepository cfg);;
  print ("======== Finished Processing Repository ========" +:+ LF).

End cmd_main.

(** ** The single-file main: [getFile], [main] *)

Section single_file_main.
Context {W Repository Worktree File : Type}.
Context {git : GoGit W Repository Worktree File}.
Context {yaml : YAML}.
Variable TrimSpace : string → string.
Variable filepath_Join : list string → string.
Variable MustParse : string → string + Quantity.

(** [getFile] panics where [GetFile] returns the error; the deferred
    [file.Close()] runs before a panic of [io.ReadAll] leaves. *)
Definition getFile (worktree : Worktree) (path : string) : IO W bytes :=
  r ← call (Filesystem_Open worktree path);
  match r with
  | inl err => panic err
  | inr file =>
      r ← call (io_ReadAll file);
      call (λ w, ((), File_Close file w));;
      match r with
      | inl err => panic err
      | inr data => mret data
      end
  end.

(** The body of the loop in this [main]. *)
Definition processRepositoryInline (cfg : config.Config) (url : string)
    : IO W unit :=
  print ("======== Processing Repository: " +:+ url +:+ " ========" +:+ LF);;
  r ← call (git_Clone (config.BaseURL cfg +:+ "/" +:+ url) (config.Branch cfg));
  match r with
  | inl err => panic err
  | inr repo =>
      r ← call (Repository_Worktree repo);
      match r with
      | inl err => panic err
      | inr worktree =>
          let targetPath :=
            filepath_Join ["overlays"; config.Env cfg; "patches";
                           "set_resources.yaml"] in
          file ← getFile worktree targetPath;
          cpuRequest ← mustParse MustParse (config.CPURequest cfg);
          memRequest ← mustParse MustParse (config.MemRequest cfg);
          cpuLimit ← mustParse MustParse (config.CPULimit cfg);
          memLimit ← mustParse MustParse (config.MemLimit cfg);
          let '(stdout, (manifest, err)) :=
            updateResource file
              {| CPURequest := cpuRequest; MemRequest := memRequest;
                 CPULimit := cpuLimit; MemLimit := memLimit |} in
          printed stdout;;
          match err with
          | Some err => print ("Failed to update resource: " +:+ err +:+ LF)
          | None =>
              r ← call (Filesystem_Create worktree targetPath);
              match r with
              | inl err =>
                  print ("Failed to open file for writing: " +:+ err +:+ LF)
              | inr f =>
                  err ← call (File_Write f (default "" manifest));
                  match err with
                  | Some err =>
                      print ("Failed to write updated YAML: " +:+ err +:+ LF);;
                      call (λ w, ((), File_Close f w))
                  | None =>
                      call (λ w, ((), File_Close f w));;
                      err ← call (Worktree_Add worktree targetPath);
                      match err with
                      | Some err =>
                          print ("Failed to add file to git: " +:+ err +:+ LF)
                      | None =>
                          err ← call (Worktree_Commit worktree
                                        "Update set_resources.yaml via automation"
                                        "AutoUpdater" "autoupdater@example.com");
                          match err with
                          | Some err =>
                              print ("Failed to commit: " +:+ err +:+ LF)
                          | None =>
                              err ← call (Repository_Push repo);
                              match err with
                              | Some err =>
                                  print ("Failed to push to remote: " +:+ err
                                         +:+ LF)
                              | None =>
                                  print "Updated file content and pushed to remote!!!"
                              end
                          end
                      end
                  end
              end
          end
      end
  end.

(** This [main] calls [godotenv.Load] itself before [getConfigFromEnv]
    does: the file .env is read twice, [dotenv] and [dotenv'] are what the
    two reads give. *)
Definition mainInline (dotenv dotenv' : error + Environ) (env : Environ)
    : IO W unit :=
  let '(err, env) := godotenv_Load dotenv env in
  match err with
  | Some _ =>
      print ("Warning: .env file not found, using system environment variables"
             +:+ LF)
  | None => mret ()
  end;;
  let cfg := config.Load TrimSpace dotenv' env in
  forRange (config.RepoURLs cfg) (processRepositoryInline cfg);;
  print ("======== Finished Processing Repository ========" +:+ LF).

End single_file_main.

(** ** scripts/get_gitlab_repos.go: listing the projects of a group *)

(** [gitlab.Project], of which the script reads one field. *)
Record Project := {
  PathWithNamespace : string
}.

(** [git.Groups.ListGroupProjects(groupID, opt)] of the GitLab client, a
    library call on the world: given the group, [opt.Page] and
    [opt.PerPage], its error, or the projects of the page with
    [resp.NextPage]. *)
Class GitLab (W : Type) := {
  ListGroupProjects :
    string → nat → nat → W → (error + list Project * nat) * W
}.

Section get_gitlab_repos.
Context {W : Type} {gitlab : GitLab W}.

(** The pagination loop of [main], entered with [opt.Page = page] and the
    projects gathered so far.  The loop has no bound of its own; [fuel]
    bounds the number of requests, and [None] means the bound was hit.
    On an error [log.Fatalf] ends the program with the message. *)
Fixpoint listPages (fuel : nat) (groupID : string) (page : nat)
    (allProjects : list Project) (w : W)
    : option ((error + list Project) * W) :=
  match fuel with
  | 0 => None
  | S fuel =>
      let '(r, w) := ListGroupProjects groupID page 100 w in
      match r with
      | inl err => Some (inl ("Failed to list projects: " +:+ err), w)
      | inr (projects, nextPage) =>
          let allProjects := allProjects ++ projects in
          if decide (nextPage = 0) then Some (inr allProjects, w)
          else listPages fuel groupID nextPage allProjects w
      end
  end.

(** The second loop and the [strings.Join]: the value written for
    REPO_URLS. *)
Definition urlsStr (allProjects : list Project) : string :=
  Join (foldl (λ repoURLs project, repoURLs ++ [PathWithNamespace project])
          [] allProjects) ",".

(** [main] from the pagination loop on, given what [os.ReadFile] and
    [os.WriteFile] do for the .env file: the fatal message, or the new
    content of the file. *)
Definition listAndUpdate (fuel : nat) (groupID : string) (r : readFile)
    (writeErr : option error) (w : W) : option ((error + bytes) * W) :=
  '(listed, w) ← listPages fuel groupID 0 [] w;
  match listed with
  | inl fatal => Some (inl fatal, w)
  | inr allProjects =>
      Some (updateEnvFile "REPO_URLS" (urlsStr allProjects) r writeErr, w)
  end.

(** A server that answers the requests of the loop page after page:
    from [page] in world [w] it serves the listed pages, the last one with
    [NextPage = 0], and leaves the world [w']. *)
Inductive Serves (groupID : string)
    : nat → W → list (list Project) → W → Prop :=
  | serves_last page w projects w' :
      ListGroupProjects groupID page 100 w = (inr (projects, 0), w') →
      Serves groupID page w [projects] w'
  | serves_next page w projects nextPage w1 pages w' :
      ListGroupProjects groupID page 100 w = (inr (projects, nextPage), w1) →
      nextPage ≠ 0 →
      Serves groupID nextPage w1 pages w' →
      Serves groupID page w (projects :: pages) w'.

End get_gitlab_repos.

(** ** Watching the library calls

    Any [GoGit] world can be run with a record of the calls made on it:
    the world is paired with the list of calls so far, and every call adds
    its entry before it returns.  The entries of [Open] and [Create] tell
    whether the call handed back a file; those of [Add], [Commit] and
    [Push] keep the error the call returned. *)
Inductive Call :=
  | CallClone (url branch : string)
  | CallWorktree
  | CallAdd (path : string) (err : option error)
  | CallCommit (msg name email : string) (err : option error)
  | CallPush (err : option error)
  | CallOpen (path : string) (opened : bool)
  | CallCreate (path : string) (opened : bool)
  | CallReadAll
  | CallWrite (data : bytes)
  | CallClose.

Definition recorded {W A} (entry : A → Call) (f : W → A * W)
    : W * list Call → A * (W * list Call) :=
  λ '(w, calls), let '(x, w) := f w in (x, (w, calls ++ [entry x])).

Definition succeeded {A} (r : error + A) : bool :=
  match r with
  | inl _ => false
  | inr _ => true
  end.

Definition recording {W Repository Worktree File : Type}
    (git : GoGit W Repository Worktree File)
    : GoGit (W * list Call) Repository Worktree File :=
  {| git_Clone url branch :=
       recorded (λ _, CallClone url branch) (git_Clone url branch);
     Repository_Worktree repo :=
       recorded (λ _, CallWorktree) (Repository_Worktree repo);
     Worktree_Add worktree path :=
       recorded (CallAdd path) (Worktree_Add worktree path);
     Worktree_Commit worktree msg name email :=
       recorded (CallCommit msg name email)
         (Worktree_Commit worktree msg name email);
     Repository_Push repo := recorded CallPush (Repository_Push repo);
     Filesystem_Open worktree path :=
       recorded (λ r, CallOpen path (succeeded r)) (Filesystem_Open worktree path);
     Filesystem_Create worktree path :=
       recorded (λ r, CallCreate path (succeeded r))
         (Filesystem_Create worktree path);
     io_ReadAll file := recorded (λ _, CallReadAll) (io_ReadAll file);
     File_Write file data :=
       recorded (λ _, CallWrite data) (File_Write file data);
     File_Close file := λ '(w, calls), (File_Close file w, calls ++ [CallClose]) |}.

(** The clone calls of a record, in order. *)
Definition clones (calls : list Call) : list (string * string) :=
  omap (λ c, match c with CallClone url branch => Some (url, branch) | _ => None end)
       calls.

(** The data of the write calls of a record, in order. *)
Definition writes (calls : list Call) : list bytes :=
  omap (λ c, match c with CallWrite data => Some data | _ => None end) calls.

(** One entry per push call of a record. *)
Definition pushes (calls : list Call) : list unit :=
  omap (λ c, match c with CallPush _ => Some () | _ => None end) calls.

(** One entry per file handed out by [Open] or [Create]. *)
Definition handles (calls : list Call) : list unit :=
  omap (λ c, match c with
             | CallOpen _ true | CallCreate _ true => Some ()
             | _ => None
             end) calls.

(** One entry per [Close] call. *)
Definition closes (calls : list Call) : list unit :=
  omap (λ c, match c with CallClose => Some () | _ => None end) calls.

(** The quantity set [main] hands to the patcher. *)
Definition parsedFrom (MustParse : string → string + Quantity)
    (cfg : config.Config) (rc : ResourceConfig) : Prop :=
  MustParse (config.CPURequest cfg) = inr (CPURequest rc)
  ∧ MustParse (config.MemRequest cfg) = inr (MemRequest rc)
  ∧ MustParse (config.CPULimit cfg) = inr (CPULimit rc)
  ∧ MustParse (config.MemLimit cfg) = inr (MemLimit rc).

(** ** What [main] leaves in the record *)

Section records.
Context {yaml : YAML}.
Variable MustParse : string → string + Quantity.

(** What one turn of the loop adds to the record of calls. *)
Definition turnRecord (cfg : config.Config) (url : string)
    (r : string + ()) (delta : list Call) : Prop :=
  clones delta = [(config.BaseURL cfg +:+ "/" +:+ url, config.Branch cfg)]
  ∧ Forall (λ data, ∃ file rc stdout,
              parsedFrom MustParse cfg rc
              ∧ Patch file rc = (stdout, (Some data, None)))
           (writes delta)
  ∧ length (pushes delta) ≤ length (writes delta)
  ∧ closes delta = handles delta
  ∧ ((∃ rc, parsedFrom MustParse cfg rc) → r = inr ()).

(** What the whole loop adds. *)
Definition loopRecord (cfg : config.Config) (urls : list string)
    (r : string + ()) (delta : list Call) : Prop :=
  (∃ done, done `prefix_of` urls
           ∧ clones delta
             = (λ url, (config.BaseURL cfg +:+ "/" +:+ url, config.Branch cfg))
               <$> done
           ∧ (r = inr () → done = urls))
  ∧ Forall (λ data, ∃ file rc stdout,
              parsedFrom MustParse cfg rc
              ∧ Patch file rc = (stdout, (Some data, None)))
           (writes delta)
  ∧ length (pushes delta) ≤ length (writes delta)
  ∧ closes delta = handles delta
  ∧ ((∃ rc, parsedFrom MustParse cfg rc) → r = inr ()).

End records.

(** ** A small world to run [main] in

    One remote host.  Cloning fails for the repository named [missing];
    every other repository holds the given manifest at whatever path is
    opened, in [git] the "valid deployment" manifest of the test.  Nothing
    else fails.  [MustParse]
    stands in for the library on the quantities used here, and [pathJoin]
    for [filepath.Join] on clean path elements. *)
Module playground.

Definition world (manifest : bytes) : GoGit unit string string string :=
  {| git_Clone url branch w :=
       if decide (url = "https://git.example.com/missing")
       then (inl "repository not found", w) else (inr url, w);
     Repository_Worktree repo w := (inr repo, w);
     Worktree_Add worktree path w := (None, w);
     Worktree_Commit worktree msg name email w := (None, w);
     Repository_Push repo w := (None, w);
     Filesystem_Open worktree path w := (inr path, w);
     Filesystem_Create worktree path w := (inr path, w);
     io_ReadAll file w := (inr manifest, w);
     File_Write file data w := (None, w);
     File_Close file w := w |}.

Definition git : GoGit unit string string string :=
  world fixture.deploymentYAML.

Definition MustParse (str : string) : string + Quantity :=
  if bool_decide (str ∈ ["10m"; "16Mi"; "20m"; "32Mi"; "100m"; "128Mi"; "200m"; "256Mi"])
  then inr str
  else inl ("cannot parse '" +:+ str +:+ "': quantities must match the regular expression '^([+-]?[0-9.]+)([eEinumkKMGTP]*[-+]?[0-9]*)$'").

Definition pathJoin (elems : list string) : string := Join elems "/".

(** A GitLab server with two pages of projects for every group. *)
Definition gitlab : GitLab unit :=
  {| ListGroupProjects groupID page perPage w :=
       if decide (page = 0)
       then (inr ([ {| PathWithNamespace := "group/app" |};
                    {| PathWithNamespace := "group/api" |} ], 2), w)
       else (inr ([ {| PathWithNamespace := "group/web" |} ], 0), w) |}.

(** A process environment with six of the variables, and a file .env
    with the other two and a branch that the environment overrides. *)
Definition env : Environ :=
  {[ "ENV" := "dev"; "BASE_URL" := "https://git.example.com"; "BRANCH" := "main";
     "REPO_URLS" := "missing, app";
     "CPU_REQUEST" := "100m"; "MEM_REQUEST" := "128Mi" ]}.

Definition dotenv : error + Environ :=
  inr {[ "BRANCH" := "develop"; "CPU_LIMIT" := "200m"; "MEM_LIMIT" := "256Mi" ]}.

End playground.

(** * Properties *)

(** ** Places *)

Lemma load_store T (cs : list Container) (obj : GoStruct T) :
  load (containersOf T) (store (containersOf T) cs obj) = cs.
Proof. destruct T; reflexivity. Qed.

Lemma store_load T (obj : GoStruct T) :
  store (containersOf T) (load (containersOf T) obj) obj = obj.
Proof.
  destruct T; simpl in *;
    try (destruct obj as [tm om [[tom [cs pf]] sf] st]; reflexivity).
  destruct obj as [tm om [cs pf] st]; reflexivity.
Qed.

Lemma store_store T (cs cs' : list Container) (obj : GoStruct T) :
  store (containersOf T) cs' (store (containersOf T) cs obj)
  = store (containersOf T) cs' obj.
Proof. destruct T; reflexivity. Qed.

Lemma typeMetaOf_store T (cs : list Container) (obj : GoStruct T) :
  typeMetaOf (store (containersOf T) cs obj) = typeMetaOf obj.
Proof. destruct T; reflexivity. Qed.

Lemma objectMetaOf_store T (cs : list Container) (obj : GoStruct T) :
  objectMetaOf (store (containersOf T) cs obj) = objectMetaOf obj.
Proof. destruct T; reflexivity. Qed.

Lemma set_Resources_same (c : Container) : set_Resources (Resources c) c = c.
Proof. by destruct c. Qed.

Lemma set_Resources_twice r r' (c : Container) :
  set_Resources r' (set_Resources r c) = set_Resources r' c.
Proof. reflexivity. Qed.

Lemma patchFirst_twice r r' cs :
  patchFirst r' (patchFirst r cs) = patchFirst r' cs.
Proof. by destruct cs. Qed.

Lemma patchFirst_length r cs : length (patchFirst r cs) = length cs.
Proof. by destruct cs. Qed.

Lemma withResources_twice T r r' (obj : GoStruct T) :
  withResources T r' (withResources T r obj) = withResources T r' obj.
Proof.
  unfold withResources. by rewrite load_store, store_store, patchFirst_twice.
Qed.

(** Undoing the write to container 0 gives the decoded object back: the
    write touches nothing else. *)
Lemma withResources_undo T r (obj : GoStruct T) c0 rest :
  load (containersOf T) obj = c0 :: rest →
  withResources T (Resources c0) (withResources T r obj) = obj.
Proof.
  intros Hl. rewrite withResources_twice. unfold withResources.
  rewrite Hl. simpl. rewrite set_Resources_same, <-Hl. apply store_load.
Qed.

(** ** The new resource requirements *)

Lemma newResources_Requests_cpu rc :
  Requests (newResources rc) !! ResourceCPU = Some (CPURequest rc).
Proof. reflexivity. Qed.

Lemma newResources_Requests_memory rc :
  Requests (newResources rc) !! ResourceMemory = Some (MemRequest rc).
Proof. reflexivity. Qed.

Lemma newResources_Limits_cpu rc :
  Limits (newResources rc) !! ResourceCPU = Some (CPULimit rc).
Proof. reflexivity. Qed.

Lemma newResources_Limits_memory rc :
  Limits (newResources rc) !! ResourceMemory = Some (MemLimit rc).
Proof. reflexivity. Qed.

Lemma newResources_Requests_dom rc :
  dom (Requests (newResources rc)) = ({[ ResourceCPU; ResourceMemory ]} : gset string).
Proof. simpl. rewrite dom_insert_L, dom_singleton_L. reflexivity. Qed.

Lemma newResources_Limits_dom rc :
  dom (Limits (newResources rc)) = ({[ ResourceCPU; ResourceMemory ]} : gset string).
Proof. simpl. rewrite dom_insert_L, dom_singleton_L. reflexivity. Qed.

Lemma newResources_Requests_other rc name :
  name ≠ ResourceCPU → name ≠ ResourceMemory →
  Requests (newResources rc) !! name = None.
Proof.
  intros. simpl. rewrite lookup_insert_ne, lookup_singleton_ne; done.
Qed.

Lemma newResources_Limits_other rc name :
  name ≠ ResourceCPU → name ≠ ResourceMemory →
  Limits (newResources rc) !! name = None.
Proof.
  intros. simpl. rewrite lookup_insert_ne, lookup_singleton_ne; done.
Qed.

(** ** [getKind] and the extractor table *)

Section k8s_facts.
Context {yaml : YAML}.

Lemma getKind_found data found :
  Unmarshal_typeMeta data = inr found →
  getKind data = (default "" found, None).
Proof. intros Hk. unfold getKind. rewrite Hk. by destruct found. Qed.

Lemma getKind_error data err :
  Unmarshal_typeMeta data = inl err →
  getKind data = ("", Some ("YAML unmarshal error: " +:+ err)).
Proof. intros Hk. unfold getKind. by rewrite Hk. Qed.

(** [getKind] adds no failure of its own to the decoder's. *)
Lemma getKind_fails_iff data :
  is_Some (getKind data).2 ↔ ∃ err, Unmarshal_typeMeta data = inl err.
Proof.
  unfold getKind. destruct (Unmarshal_typeMeta data) as [err|found]; simpl.
  - split; [eauto|]. intros _. by eexists.
  - split; [intros [? [=]]|intros [? [=]]].
Qed.

Lemma getK8SKind_getKind data : getK8SKind data = getKind data.
Proof. reflexivity. Qed.

Lemma extractorMap_supported T :
  extractorMap !! kindName T = Some (newExtractor T (containersOf T)).
Proof. destruct T; reflexivity. Qed.

Lemma kindName_supported T : kindName T ∈ supportedKinds.
Proof. destruct T; unfold supportedKinds; simpl; set_solver. Qed.

Lemma supported_kindName kind :
  kind ∈ supportedKinds → ∃ T, kind = kindName T.
Proof.
  unfold supportedKinds. rewrite !elem_of_cons, elem_of_nil.
  intros [->|[->|[->|[->|[->|[]]]]]];
    [by exists TDeployment|by exists TDaemonSet|by exists TStatefulSet
    |by exists TPod|by exists TJob].
Qed.

Lemma extractorMap_unsupported kind :
  kind ∉ supportedKinds → extractorMap !! kind = None.
Proof.
  unfold supportedKinds. rewrite !not_elem_of_cons. intros (?&?&?&?&?&_).
  unfold extractorMap.
  rewrite !lookup_insert_ne, lookup_singleton_ne; done.
Qed.

Lemma extractorMap_lookup kind extractor :
  extractorMap !! kind = Some extractor →
  ∃ T, kind = kindName T ∧ extractor = newExtractor T (containersOf T).
Proof.
  intros Hl. destruct (decide (kind ∈ supportedKinds)) as [Hin|Hout].
  - apply supported_kindName in Hin as [T ->]. exists T. split; [done|].
    rewrite extractorMap_supported in Hl. congruence.
  - rewrite extractorMap_unsupported in Hl; done.
Qed.

Lemma newExtractor_decoded T file (obj : GoStruct T) :
  Unmarshal T file = inr obj →
  newExtractor T (containersOf T) file
  = inr {| manifest := λ cs, Ptr T (store (containersOf T) cs obj);
           containers := load (containersOf T) obj |}.
Proof. intros Hu. unfold newExtractor, unmarshalK8sResource. by rewrite Hu. Qed.

Lemma newExtractor_error T file err :
  Unmarshal T file = inl err →
  newExtractor T (containersOf T) file = inl err.
Proof. intros Hu. unfold newExtractor, unmarshalK8sResource. by rewrite Hu. Qed.

(** ** [Patch], path by path *)

Lemma Patch_getKind_error file rc err :
  Unmarshal_typeMeta file = inl err →
  Patch file rc = ([], failed ("YAML unmarshal error: " +:+ err)).
Proof. intros Hk. unfold Patch. by rewrite (getKind_error _ _ Hk). Qed.

Lemma Patch_unsupported file rc found :
  Unmarshal_typeMeta file = inr found →
  default "" found ∉ supportedKinds →
  Patch file rc = ([], failed ("unsupported kind: " +:+ default "" found)).
Proof.
  intros Hk Hout. unfold Patch.
  rewrite (getKind_found _ _ Hk). cbv beta iota.
  by rewrite (extractorMap_unsupported _ Hout).
Qed.

Lemma Patch_extract_error file rc found T err :
  Unmarshal_typeMeta file = inr found →
  default "" found = kindName T →
  Unmarshal T file = inl err →
  Patch file rc
  = ([], failed ("failed to extract containers for kind " +:+ kindName T
                 +:+ ": " +:+ err)).
Proof.
  intros Hk Hn Hu. unfold Patch.
  rewrite (getKind_found _ _ Hk), Hn. cbv beta iota.
  rewrite extractorMap_supported.
  by rewrite (newExtractor_error _ _ _ Hu).
Qed.

Lemma Patch_no_containers file rc found T (obj : GoStruct T) :
  Unmarshal_typeMeta file = inr found →
  default "" found = kindName T →
  Unmarshal T file = inr obj →
  load (containersOf T) obj = [] →
  Patch file rc = ([], failed ("no containers found in " +:+ kindName T)).
Proof.
  intros Hk Hn Hu Hl. unfold Patch.
  rewrite (getKind_found _ _ Hk), Hn. cbv beta iota.
  rewrite extractorMap_supported.
  rewrite (newExtractor_decoded _ _ _ Hu). simpl. by rewrite Hl.
Qed.

(** With at least one container, [Patch] prints the notice and returns
    whatever [Marshal] makes of the object with container 0 rewritten. *)
Lemma Patch_marshals file rc found T (obj : GoStruct T) c0 rest :
  Unmarshal_typeMeta file = inr found →
  default "" found = kindName T →
  Unmarshal T file = inr obj →
  load (containersOf T) obj = c0 :: rest →
  Patch file rc
  = (notice (kindName T) (c0 :: rest),
     returned (Marshal (Ptr T (withResources T (newResources rc) obj)))).
Proof.
  intros Hk Hn Hu Hl. unfold Patch.
  rewrite (getKind_found _ _ Hk), Hn. cbv beta iota.
  rewrite extractorMap_supported.
  rewrite (newExtractor_decoded _ _ _ Hu). simpl.
  unfold withResources, notice. by rewrite Hl.
Qed.

Lemma Patch_run file rc : PatchRun file rc (Patch file rc).
Proof.
  destruct (Unmarshal_typeMeta file) as [err|found] eqn:Hk.
  { rewrite (Patch_getKind_error _ _ _ Hk). by constructor. }
  destruct (decide (default "" found ∈ supportedKinds)) as [Hin|Hout];
    [|rewrite (Patch_unsupported _ _ _ Hk Hout); by constructor].
  apply supported_kindName in Hin as [T Hn].
  destruct (Unmarshal T file) as [err|obj] eqn:Hu.
  { rewrite (Patch_extract_error _ _ _ _ _ Hk Hn Hu). by econstructor. }
  destruct (load (containersOf T) obj) as [|c0 rest] eqn:Hl.
  - rewrite (Patch_no_containers _ _ _ _ _ Hk Hn Hu Hl). by econstructor.
  - rewrite (Patch_marshals _ _ _ _ _ _ _ Hk Hn Hu Hl). by econstructor.
Qed.

End k8s_facts.

(** ** What a successful [Patch] has done *)

Section patcher.
Context {yaml : YAML}.

Lemma returned_ok (r : error + bytes) out e :
  returned r = (Some out, e) → r = inr out ∧ e = None.
Proof. destruct r; simpl; unfold ok, failed; intros [=]; by subst. Qed.

Lemma returned_cases (r : error + bytes) :
  (∃ out, r = inr out ∧ returned r = ok out)
  ∨ (∃ err, r = inl err ∧ returned r = failed err).
Proof. destruct r; [right|left]; eauto. Qed.

(** A call that hands back bytes went down the last path. *)
Lemma Patch_ok_inv file rc stdout out e :
  Patch file rc = (stdout, (Some out, e)) →
  ∃ found T (obj : GoStruct T) c0 rest,
    Unmarshal_typeMeta file = inr found
    ∧ default "" found = kindName T
    ∧ Unmarshal T file = inr obj
    ∧ load (containersOf T) obj = c0 :: rest
    ∧ Marshal (Ptr T (withResources T (newResources rc) obj)) = inr out
    ∧ stdout = notice (kindName T) (c0 :: rest)
    ∧ e = None.
Proof.
  intros Hp. pose proof (Patch_run file rc) as Hrun. rewrite Hp in Hrun.
  inversion Hrun as [| | | |found T obj c0 rest Hk Hn Hu Hl Hout].
  match goal with
  | Hret : returned _ = _ |- _ => apply returned_ok in Hret as [Hm ->]
  end.
  exists found, T, obj, c0, rest. done.
Qed.

(** The containers of the object that is serialised. *)
Lemma withResources_containers T r (obj : GoStruct T) c0 rest :
  load (containersOf T) obj = c0 :: rest →
  load (containersOf T) (withResources T r obj) = set_Resources r c0 :: rest.
Proof. intros Hl. unfold withResources. by rewrite load_store, Hl. Qed.

Lemma withResources_typeMeta T r (obj : GoStruct T) :
  typeMetaOf (withResources T r obj) = typeMetaOf obj.
Proof. apply typeMetaOf_store. Qed.

Lemma withResources_objectMeta T r (obj : GoStruct T) :
  objectMetaOf (withResources T r obj) = objectMetaOf obj.
Proof. apply objectMetaOf_store. Qed.

(** [Patch] on a manifest with exactly one container, for each of the
    five kinds: the call prints nothing and returns the encoding of an
    object whose only container has the four supplied quantities, and
    whose apiVersion, metadata.name, container name and image are those
    of the input.  That container is what the decoder reads at index 0 of
    the returned bytes when it decodes them back. *)
Lemma Patch_single_container T file rc found (obj : GoStruct T) c out :
  Unmarshal_typeMeta file = inr found →
  default "" found = kindName T →
  Unmarshal T file = inr obj →
  load (containersOf T) obj = [c] →
  Marshal (Ptr T (withResources T (newResources rc) obj)) = inr out →
  Patch file rc = ([], ok out)
  ∧ ∃ c', load (containersOf T) (withResources T (newResources rc) obj) = [c']
      ∧ (Unmarshal T out = inr (withResources T (newResources rc) obj) →
         container0 T out = Some c')
      ∧ Requests (Resources c') !! ResourceCPU = Some (CPURequest rc)
      ∧ Requests (Resources c') !! ResourceMemory = Some (MemRequest rc)
      ∧ Limits (Resources c') !! ResourceCPU = Some (CPULimit rc)
      ∧ Limits (Resources c') !! ResourceMemory = Some (MemLimit rc)
      ∧ Name c' = Name c
      ∧ Image c' = Image c
      ∧ APIVersion (typeMetaOf (withResources T (newResources rc) obj))
        = APIVersion (typeMetaOf obj)
      ∧ meta_Name (objectMetaOf (withResources T (newResources rc) obj))
        = meta_Name (objectMetaOf obj).
Proof.
  intros Hk Hn Hu Hl Hm.
  pose proof (withResources_containers T (newResources rc) obj c [] Hl) as Hl'.
  split.
  - rewrite (Patch_marshals _ _ _ _ _ _ _ Hk Hn Hu Hl), Hm. reflexivity.
  - exists (set_Resources (newResources rc) c). rewrite Hl'.
    rewrite withResources_typeMeta, withResources_objectMeta.
    repeat split; try reflexivity.
    intros Hback. unfold container0. by rewrite Hback, Hl'.
Qed.

End patcher.

(** The "valid deployment" case of the test, checked the way its [verify]
    function does: decode the patched bytes and compare the four
    quantities. *)
Lemma Patch_valid_deployment :
  Patch (yaml:=fixture.codec) fixture.deploymentYAML fixture.resCfg
  = ([], ok fixture.deploymentYAML')
  ∧ ∃ c, container0 (yaml:=fixture.codec) TDeployment fixture.deploymentYAML'
         = Some c
      ∧ Requests (Resources c) !! ResourceCPU = Some "100m"
      ∧ Requests (Resources c) !! ResourceMemory = Some "128Mi"
      ∧ Limits (Resources c) !! ResourceCPU = Some "200m"
      ∧ Limits (Resources c) !! ResourceMemory = Some "256Mi".
Proof.
  destruct (Patch_single_container (yaml:=fixture.codec) TDeployment
              fixture.deploymentYAML fixture.resCfg (Some "Deployment")
              fixture.deployment fixture.testContainer fixture.deploymentYAML')
    as (Hp & c & _ & Hback & Hrc & Hrm & Hlc & Hlm & _);
    try (vm_compute; reflexivity).
  split; [exact Hp|]. exists c. split; [|done].
  apply Hback. vm_compute. reflexivity.
Qed.

(** ** Error paths of [Patch] *)

Section patch_errors.
Context {yaml : YAML}.

(** C7. When the bytes do not decode ([yaml.Unmarshal] returns an error),
    [getKind] fails with the malformed-document error "YAML unmarshal
      error: ...", and [Patch] returns that same error with no bytes. *)
Theorem Patch_malformed_document file rc err :
  Unmarshal_typeMeta file = inl err →
  getKind file = ("", Some ("YAML unmarshal error: " +:+ err))
  ∧ Patch file rc = ([], (None, Some ("YAML unmarshal error: " +:+ err))).
Proof.
  intros Hk. split.
  - by apply getKind_error.
  - by apply Patch_getKind_error.
Qed.

(** C6, as the code has it.  When the document decodes into [typeMeta]
    and its kind is absent (read as the empty string) or is a string
    outside Deployment, DaemonSet, StatefulSet, Pod, Job, [Patch] returns
    the error "unsupported kind: <kind>" and no bytes. *)
Theorem Patch_unsupported_kind file rc found :
  Unmarshal_typeMeta file = inr found →
  default "" found ∉ ["Deployment"; "DaemonSet"; "StatefulSet"; "Pod"; "Job"] →
  Patch file rc
  = ([], (None, Some ("unsupported kind: " +:+ default "" found))).
Proof. intros Hk Hout. by apply Patch_unsupported. Qed.

(** C8. When the manifest is of a supported kind and its container list
    is empty, [Patch] returns the error "no containers found in <kind>"
    and no bytes. *)
Theorem Patch_empty_container_list T file rc found (obj : GoStruct T) :
  Unmarshal_typeMeta file = inr found →
  default "" found = kindName T →
  Unmarshal T file = inr obj →
  load (containersOf T) obj = [] →
  Patch file rc
  = ([], (None, Some ("no containers found in " +:+ kindName T))).
Proof. intros Hk Hn Hu Hl. by eapply Patch_no_containers. Qed.

(** C9, as the code has it.  When the document decodes into [typeMeta]
    and has no top-level kind, [getKind] returns the empty string and a nil
    error; [getKind] reports an error only when the decoder does.  [Patch]
    then returns "unsupported kind: " with an empty kind name, which is not
    the malformed-document error. *)
Theorem Patch_absent_kind data rc :
  Unmarshal_typeMeta data = inr None →
  getKind data = ("", None)
  ∧ (∀ data', is_Some (getKind data').2 →
              ∃ err, Unmarshal_typeMeta data' = inl err)
  ∧ Patch data rc = ([], (None, Some "unsupported kind: "))
  ∧ ∀ err, Patch data rc
           ≠ ([], (None, Some ("YAML unmarshal error: " +:+ err))).
Proof.
  intros Hk.
  assert (Patch data rc = ([], (None, Some "unsupported kind: "))) as Hp.
  { rewrite (Patch_unsupported _ _ _ Hk); [reflexivity|].
    unfold supportedKinds. simpl. rewrite !not_elem_of_cons.
    repeat split; try discriminate. apply not_elem_of_nil. }
  repeat split.
  - by apply (getKind_found _ None).
  - intros data'. apply getKind_fails_iff.
  - exact Hp.
  - intros err. rewrite Hp. simpl. discriminate.
Qed.

End patch_errors.

(** The "invalid yaml" case of the test. *)
Lemma Patch_malformed_document_witness :
  getKind (yaml:=fixture.codec) fixture.invalidYAML
  = ("", Some "YAML unmarshal error: error converting YAML to JSON: yaml: line 1: did not find expected ',' or ']'")
  ∧ Patch (yaml:=fixture.codec) fixture.invalidYAML fixture.resCfg
    = ([], (None, Some "YAML unmarshal error: error converting YAML to JSON: yaml: line 1: did not find expected ',' or ']'")).
Proof.
  apply (Patch_malformed_document (yaml:=fixture.codec) fixture.invalidYAML
           fixture.resCfg).
  vm_compute. reflexivity.
Defined.

(** The "unsupported kind" case of the test. *)
Lemma Patch_unsupported_kind_witness :
  Patch (yaml:=fixture.codec) fixture.serviceYAML fixture.resCfg
  = ([], (None, Some "unsupported kind: Service")).
Proof.
  apply (Patch_unsupported_kind (yaml:=fixture.codec) fixture.serviceYAML
           fixture.resCfg (Some "Service")).
  - vm_compute. reflexivity.
  - refine (bool_decide_unpack _ _). vm_compute. exact I.
Defined.

(** The "no containers" case of the test. *)
Lemma Patch_empty_container_list_witness :
  Patch (yaml:=fixture.codec) fixture.noContainersYAML fixture.resCfg
  = ([], (None, Some "no containers found in Deployment")).
Proof.
  apply (Patch_empty_container_list (yaml:=fixture.codec) TDeployment
           fixture.noContainersYAML fixture.resCfg (Some "Deployment")
           fixture.noContainers).
  - vm_compute. reflexivity.
  - reflexivity.
  - vm_compute. reflexivity.
  - reflexivity.
Defined.

Lemma Patch_absent_kind_witness :
  getKind (yaml:=fixture.codec) fixture.noKindYAML = ("", None)
  ∧ Patch (yaml:=fixture.codec) fixture.noKindYAML fixture.resCfg
    = ([], (None, Some "unsupported kind: ")).
Proof.
  destruct (Patch_absent_kind (yaml:=fixture.codec) fixture.noKindYAML
              fixture.resCfg) as (Hg & _ & Hp & _).
  - vm_compute. reflexivity.
  - split; [exact Hg|exact Hp].
Defined.

(** What [Patch] answers to the two well-formed documents of the table
    that do not fit [typeMeta]. *)
Lemma Patch_listKind :
  Patch (yaml:=fixture.codec) fixture.listKindYAML fixture.resCfg
  = ([], (None, Some "YAML unmarshal error: error unmarshaling JSON: while decoding JSON: json: cannot unmarshal array into Go struct field typeMeta.Kind of type string")).
Proof. vm_compute. reflexivity. Qed.

Lemma getKind_listRoot :
  getKind (yaml:=fixture.codec) fixture.listRootYAML
  = ("", Some "YAML unmarshal error: error unmarshaling JSON: while decoding JSON: json: cannot unmarshal array into Go value of type k8s.typeMeta").
Proof. vm_compute. reflexivity. Qed.

(** C6, as worded, fails on a well-formed document whose kind is the
    sequence [Deployment]: the library reads the bytes as YAML, the kind is
    none of the five names, and [Patch] answers with the malformed-document
    error "YAML unmarshal error: ...", not with an unsupported-kind
    error. *)
Lemma Patch_parseable_unlisted_kind_counterexample :
  ¬ (∀ file rc,
       parseable (yaml:=fixture.codec) file = true →
       (∀ T, Unmarshal_typeMeta (YAML:=fixture.codec) file
             ≠ inr (Some (kindName T))) →
       ∃ stdout kind,
         Patch (yaml:=fixture.codec) file rc
         = (stdout, (None, Some ("unsupported kind: " +:+ kind)))).
Proof.
  intros Hclaim.
  destruct (Hclaim fixture.listKindYAML fixture.resCfg)
    as (stdout & kind & Hp).
  - vm_compute. reflexivity.
  - intros T. vm_compute. discriminate.
  - rewrite Patch_listKind in Hp. simpl in Hp. discriminate Hp.
Qed.

(** C9, as worded, fails on a well-formed document whose root is a
    sequence: the library reads the bytes as YAML, there is no top-level
    kind, and [getKind] reports "YAML unmarshal error: ...", which [Patch]
    hands on as the malformed-document error. *)
Lemma getKind_parseable_no_kind_counterexample :
  ¬ (∀ data rc,
       parseable (yaml:=fixture.codec) data = true →
       (∀ kind, Unmarshal_typeMeta (YAML:=fixture.codec) data
                ≠ inr (Some kind)) →
       getKind (yaml:=fixture.codec) data = ("", None)
       ∧ Patch (yaml:=fixture.codec) data rc
         = ([], (None, Some "unsupported kind: "))).
Proof.
  intros Hclaim.
  destruct (Hclaim fixture.listRootYAML fixture.resCfg) as [Hg _].
  - vm_compute. reflexivity.
  - intros kind. vm_compute. discriminate.
  - rewrite getKind_listRoot in Hg. discriminate Hg.
Qed.

(** ** The successful path of [Patch] *)

Section patch_success.
Context {yaml : YAML}.

(** C2, as the code has it.  Every call of [Patch] ends in one of two
    ways.  Either it returns bytes and a nil error: then the bytes are the
    encoding of an object that differs from the decoded one in the resource
    requirements of container 0 and nowhere else.  Those requirements are
    the supplied quantity set: requests {cpu, memory}, limits {cpu,
    memory}, no claims.  Name, image and every other field of container
    0, the containers after it, the type and object metadata are the
    decoded ones, and putting the decoded container list back gives the
    decoded object again.  Or it returns an error and nil bytes. *)
Theorem Patch_all_or_nothing file rc :
  (∃ stdout out found T (obj obj' : GoStruct T) c0 c0' rest,
      Patch file rc = (stdout, (Some out, None))
      ∧ Unmarshal_typeMeta file = inr found
      ∧ default "" found = kindName T
      ∧ Unmarshal T file = inr obj
      ∧ load (containersOf T) obj = c0 :: rest
      ∧ Marshal (Ptr T obj') = inr out
      ∧ load (containersOf T) obj' = c0' :: rest
      ∧ Requests (Resources c0')
        = {[ ResourceCPU := CPURequest rc; ResourceMemory := MemRequest rc ]}
      ∧ Limits (Resources c0')
        = {[ ResourceCPU := CPULimit rc; ResourceMemory := MemLimit rc ]}
      ∧ Claims (Resources c0') = []
      ∧ Name c0' = Name c0
      ∧ Image c0' = Image c0
      ∧ container_fields c0' = container_fields c0
      ∧ typeMetaOf obj' = typeMetaOf obj
      ∧ objectMetaOf obj' = objectMetaOf obj
      ∧ store (containersOf T) (c0 :: rest) obj' = obj)
  ∨ (∃ stdout err, Patch file rc = (stdout, (None, Some err))).
Proof.
  destruct (Patch_run file rc)
    as [err Hk|found Hk Hout|found T err Hk Hn Hu|found T obj Hk Hn Hu Hl
       |found T obj c0 rest Hk Hn Hu Hl];
    try (right; eexists _, _; reflexivity).
  destruct (returned_cases
              (Marshal (Ptr T (withResources T (newResources rc) obj))))
    as [(out & Hm & ->)|(err & Hm & ->)].
  - left.
    exists (notice (kindName T) (c0 :: rest)), out, found, T, obj,
      (withResources T (newResources rc) obj), c0,
      (set_Resources (newResources rc) c0), rest.
    rewrite withResources_typeMeta, withResources_objectMeta.
    repeat split; try done.
    + by apply withResources_containers.
    + unfold withResources. rewrite store_store, <-Hl. apply store_load.
  - right. eexists _, _. reflexivity.
Qed.

(** C3. On a manifest of a supported kind with two containers, [Patch]
    prints the multi-container warning and goes on: it returns the
    encoding of the object in which container 0 has the supplied
    quantities (requests {cpu, memory}, limits {cpu, memory}) and
    container 1 is the input's container 1, resources included.  Read
    back with the decoder, the returned bytes show the supplied quantities
    at index 0 and the input's resources at index 1. *)
Theorem Patch_two_containers T file rc found (obj : GoStruct T) c0 c1 out :
  Unmarshal_typeMeta file = inr found →
  default "" found = kindName T →
  Unmarshal T file = inr obj →
  load (containersOf T) obj = [c0; c1] →
  Marshal (Ptr T (withResources T (newResources rc) obj)) = inr out →
  Patch file rc
  = (["Warning: Multiple containers found in " +:+ kindName T
      +:+ ", updating only the first one" +:+ LF],
     (Some out, None))
  ∧ (∃ c0' c1',
      load (containersOf T) (withResources T (newResources rc) obj) = [c0'; c1']
      ∧ Requests (Resources c0')
        = {[ ResourceCPU := CPURequest rc; ResourceMemory := MemRequest rc ]}
      ∧ Limits (Resources c0')
        = {[ ResourceCPU := CPULimit rc; ResourceMemory := MemLimit rc ]}
      ∧ Resources c1' = Resources c1
      ∧ c1' = c1)
  ∧ (Unmarshal T out = inr (withResources T (newResources rc) obj) →
     Resources <$> container0 T out
     = Some {| Requests := {[ ResourceCPU := CPURequest rc;
                              ResourceMemory := MemRequest rc ]};
               Limits := {[ ResourceCPU := CPULimit rc;
                            ResourceMemory := MemLimit rc ]};
               Claims := [] |}
     ∧ Resources <$> container1 T out = Resources <$> container1 T file).
Proof.
  intros Hk Hn Hu Hl Hm.
  pose proof (withResources_containers T (newResources rc) obj c0 [c1] Hl)
    as Hl'.
  split; [|split].
  - rewrite (Patch_marshals _ _ _ _ _ _ _ Hk Hn Hu Hl), Hm. reflexivity.
  - exists (set_Resources (newResources rc) c0), c1. by rewrite Hl'.
  - intros Hback. unfold container0, container1.
    by rewrite Hback, Hu, Hl, Hl'.
Qed.

(** C4, as the code has it.  On a manifest of a supported kind with at
    least one container, [Patch] replaces the whole resources record of
    container 0: requests and limits become exactly {cpu, memory} from
    the supplied configuration, no earlier key survives, and
    resources.claims is emptied.  Every field of container 0 outside its
    resources record keeps its input value.  The container meant is the
    first one of the object that is encoded, which is also what the
    decoder reads at index 0 of the returned bytes when it decodes them
    back. *)
Theorem Patch_overwrites_resources T file rc found (obj : GoStruct T)
    c0 rest out :
  Unmarshal_typeMeta file = inr found →
  default "" found = kindName T →
  Unmarshal T file = inr obj →
  load (containersOf T) obj = c0 :: rest →
  Marshal (Ptr T (withResources T (newResources rc) obj)) = inr out →
  Patch file rc = (notice (kindName T) (c0 :: rest), (Some out, None))
  ∧ ∃ c0',
      load (containersOf T) (withResources T (newResources rc) obj)
      = c0' :: rest
      ∧ (Unmarshal T out = inr (withResources T (newResources rc) obj) →
         container0 T out = Some c0')
      ∧ Requests (Resources c0')
        = {[ ResourceCPU := CPURequest rc; ResourceMemory := MemRequest rc ]}
      ∧ Limits (Resources c0')
        = {[ ResourceCPU := CPULimit rc; ResourceMemory := MemLimit rc ]}
      ∧ (∀ name, name ≠ ResourceCPU → name ≠ ResourceMemory →
           Requests (Resources c0') !! name = None
           ∧ Limits (Resources c0') !! name = None)
      ∧ Claims (Resources c0') = []
      ∧ Name c0' = Name c0
      ∧ Image c0' = Image c0
      ∧ container_fields c0' = container_fields c0.
Proof.
  intros Hk Hn Hu Hl Hm.
  pose proof (withResources_containers T (newResources rc) obj c0 rest Hl)
    as Hl'.
  split.
  - rewrite (Patch_marshals _ _ _ _ _ _ _ Hk Hn Hu Hl), Hm. reflexivity.
  - exists (set_Resources (newResources rc) c0). rewrite Hl'.
    repeat split; try reflexivity.
    + intros Hback. unfold container0. by rewrite Hback, Hl'.
    + by apply newResources_Requests_other.
    + by apply newResources_Limits_other.
Qed.

End patch_success.

(** The two-container Deployment of the table, patched with 100m, 128Mi,
    200m and 256Mi. *)
Lemma Patch_two_containers_witness :
  Patch (yaml:=fixture.codec) fixture.sidecarYAML fixture.resCfg
  = (["Warning: Multiple containers found in Deployment, updating only the first one" +:+ LF],
     (Some fixture.sidecarYAML', None))
  ∧ Resources <$> container0 (yaml:=fixture.codec) TDeployment fixture.sidecarYAML'
    = Some {| Requests := {[ "cpu" := "100m"; "memory" := "128Mi" ]};
              Limits := {[ "cpu" := "200m"; "memory" := "256Mi" ]};
              Claims := [] |}
  ∧ Resources <$> container1 (yaml:=fixture.codec) TDeployment fixture.sidecarYAML'
    = Some {| Requests := ∅; Limits := {[ "cpu" := "10m" ]}; Claims := [] |}.
Proof.
  destruct (Patch_two_containers (yaml:=fixture.codec) TDeployment
              fixture.sidecarYAML fixture.resCfg (Some "Deployment")
              fixture.withSidecar fixture.app fixture.sidecar
              fixture.sidecarYAML')
    as (Hp & _ & Hback).
  - vm_compute. reflexivity.
  - reflexivity.
  - vm_compute. reflexivity.
  - reflexivity.
  - vm_compute. reflexivity.
  - destruct Hback as [H0 H1]; [vm_compute; reflexivity|].
    split; [exact Hp|]. split; [exact H0|]. rewrite H1.
    vm_compute. reflexivity.
Defined.

(** C2, as worded, fails on the "valid deployment" manifest of the test:
    the call succeeds, yet the document that comes back is not the input
    with container 0's resources replaced.  It has a top-level entry
    [status: {}] that the input does not have, and more such entries
    further in: the encoder writes out fields of the API struct that the
    input left unset. *)
Lemma Patch_rest_of_document_counterexample :
  ¬ (∀ stdout out,
       Patch (yaml:=fixture.codec) fixture.deploymentYAML fixture.resCfg
       = (stdout, (Some out, None)) →
       topLevel out = topLevel fixture.deploymentYAML).
Proof.
  intros Hsame.
  specialize (Hsame [] fixture.deploymentYAML').
  assert (topLevel fixture.deploymentYAML'
          = ["apiVersion: apps/v1"; "kind: Deployment"; "metadata:"; "spec:";
             "status: {}"]) as Hout by (vm_compute; reflexivity).
  assert (topLevel fixture.deploymentYAML
          = ["apiVersion: apps/v1"; "kind: Deployment"; "metadata:"; "spec:"])
    as Hin by (vm_compute; reflexivity).
  rewrite Hout, Hin in Hsame. discriminate Hsame. vm_compute. reflexivity.
Qed.

(** C4, as worded, fails on the two-container Deployment of the table:
    container 0 comes in with the resource claim [gpu], a field other than
    requests and limits, and goes out without it. *)
Lemma Patch_keeps_other_fields_counterexample :
  ¬ (∀ stdout out c0 c0',
       Patch (yaml:=fixture.codec) fixture.sidecarYAML fixture.resCfg
       = (stdout, (Some out, None)) →
       container0 (yaml:=fixture.codec) TDeployment fixture.sidecarYAML = Some c0 →
       container0 (yaml:=fixture.codec) TDeployment out = Some c0' →
       Name c0' = Name c0
       ∧ Image c0' = Image c0
       ∧ Claims (Resources c0') = Claims (Resources c0)
       ∧ container_fields c0' = container_fields c0).
Proof.
  intros Hkeeps.
  destruct (Hkeeps
              ["Warning: Multiple containers found in Deployment, updating only the first one" +:+ LF]
              fixture.sidecarYAML' fixture.app
              (set_Resources (newResources fixture.resCfg) fixture.app))
    as (_ & _ & Hclaims & _).
  - vm_compute. reflexivity.
  - vm_compute. reflexivity.
  - vm_compute. reflexivity.
  - discriminate Hclaims.
Qed.

Lemma Patch_overwrites_resources_witness :
  Patch (yaml:=fixture.codec) fixture.sidecarYAML fixture.resCfg
  = (["Warning: Multiple containers found in Deployment, updating only the first one" +:+ LF],
     (Some fixture.sidecarYAML', None))
  ∧ Resources (fixture.patched fixture.app)
    = {| Requests := {[ "cpu" := "100m"; "memory" := "128Mi" ]};
         Limits := {[ "cpu" := "200m"; "memory" := "256Mi" ]};
         Claims := [] |}.
Proof.
  destruct (Patch_overwrites_resources (yaml:=fixture.codec) TDeployment
              fixture.sidecarYAML fixture.resCfg (Some "Deployment")
              fixture.withSidecar fixture.app [fixture.sidecar]
              fixture.sidecarYAML')
    as (Hp & _).
  - vm_compute. reflexivity.
  - reflexivity.
  - vm_compute. reflexivity.
  - reflexivity.
  - vm_compute. reflexivity.
  - split; [exact Hp|reflexivity].
Defined.

(** ** Patching twice *)

Section patch_twice.
Context {yaml : YAML} {roundtrip : YAMLRoundTrip}.

(** C5. With a codec that decodes its own output back, patching the
    output of a successful [Patch] again with the same quantities
    succeeds, prints the same, and returns the same bytes; container 0
    of that output carries the supplied quantities under the two keys
    cpu and memory, once each. *)
Theorem Patch_idempotent file rc stdout out :
  Patch file rc = (stdout, (Some out, None)) →
  Patch out rc = (stdout, (Some out, None))
  ∧ ∃ T c0,
      container0 T out = Some c0
      ∧ Resources c0 = newResources rc
      ∧ dom (Requests (Resources c0))
        = ({[ ResourceCPU; ResourceMemory ]} : gset string)
      ∧ dom (Limits (Resources c0))
        = ({[ ResourceCPU; ResourceMemory ]} : gset string).
Proof.
  intros Hp.
  apply Patch_ok_inv in Hp
    as (found & T & obj & c0 & rest & Hk & Hn & Hu & Hl & Hm & -> & _).
  pose proof (withResources_containers T (newResources rc) obj c0 rest Hl)
    as Hl'.
  pose proof (Unmarshal_Marshal T _ out Hm) as Hu'.
  destruct (Unmarshal_typeMeta_Marshal T _ out Hm) as (k & Hk' & Hkind).
  rewrite withResources_typeMeta in Hkind.
  rewrite (Unmarshal_same_kind T file found obj Hk Hu), Hn in Hkind.
  split.
  - rewrite (Patch_marshals _ _ _ _ _ _ _ Hk' Hkind Hu' Hl').
    rewrite withResources_twice, Hm. reflexivity.
  - exists T, (set_Resources (newResources rc) c0).
    unfold container0. rewrite Hu', Hl'.
    split; [reflexivity|]. split; [reflexivity|].
    split; [apply newResources_Requests_dom|apply newResources_Limits_dom].
Qed.

End patch_twice.

(** ** The table codec decodes its own output back *)

Lemma assoc_elem_of {K V} `{EqDecision K} (k : K) (v : V) table :
  fixture.assoc k table = Some v → (k, v) ∈ table.
Proof.
  induction table as [|[k' v'] table IH]; simpl; [done|].
  case_decide as Hk.
  - intros [= ->]. subst. apply list_elem_of_here.
  - intros Hl. apply list_elem_of_further. by apply IH.
Qed.

Lemma ptr_inv T T' (o : GoStruct T) (o' : GoStruct T') :
  Ptr T o = Ptr T' o' → ∃ e : T' = T, o = eq_rect T' GoStruct o' T e.
Proof.
  intros Heq. assert (T' = T) as e by (by injection Heq). exists e.
  destruct e. simpl. injection Heq as Heq.
  exact (Eqdep_dec.inj_pair2_eq_dec _ GoType_eq_dec _ _ _ _ Heq).
Qed.

Lemma fixture_Unmarshal_inv T data (obj : GoStruct T) :
  Unmarshal (YAML:=fixture.codec) T data = inr obj →
  (data, Ptr T obj) ∈ fixture.objects.
Proof.
  cbn [Unmarshal fixture.codec].
  destruct (fixture.assoc data fixture.objects) as [a|] eqn:Ha;
    cbn [mbind option_bind]; [|discriminate].
  apply assoc_elem_of in Ha.
  destruct a as [|T' o']; cbn [fixture.deref]; [discriminate|].
  destruct (decide (T' = T)) as [e|]; [|discriminate].
  destruct e. cbn [eq_rect]. by intros [= <-].
Qed.

Lemma fixture_Marshal_inv a out :
  Marshal (YAML:=fixture.codec) a = inr out → (a, out) ∈ fixture.texts.
Proof.
  cbn [Marshal fixture.codec].
  destruct (fixture.assoc a fixture.texts) as [out'|] eqn:Ha; [|discriminate].
  intros [= <-]. by apply assoc_elem_of.
Qed.

Local Ltac table_cases Hin :=
  repeat (apply elem_of_cons in Hin as [Hin|Hin]);
  [..|by apply elem_of_nil in Hin].

Lemma fixture_round_trip : YAMLRoundTrip (yaml:=fixture.codec).
Proof.
  split.
  - intros T data k obj Hk Hu. apply fixture_Unmarshal_inv in Hu.
    unfold fixture.objects in Hu. table_cases Hu;
      apply pair_equal_spec in Hu as [-> Hu];
      apply ptr_inv in Hu as [e Hu]; destruct e;
      simpl in Hu; subst obj; vm_compute in Hk; injection Hk as <-;
      reflexivity.
  - intros T obj out Hm. apply fixture_Marshal_inv in Hm.
    unfold fixture.texts in Hm. table_cases Hm;
      apply pair_equal_spec in Hm as [Hm ->]; try discriminate Hm;
      apply ptr_inv in Hm as [e Hm]; destruct e;
      simpl in Hm; subst obj; vm_compute; reflexivity.
  - intros T obj out Hm. apply fixture_Marshal_inv in Hm.
    unfold fixture.texts in Hm. table_cases Hm;
      apply pair_equal_spec in Hm as [Hm ->]; try discriminate Hm;
      apply ptr_inv in Hm as [e Hm]; destruct e;
      simpl in Hm; subst obj; eexists; split; vm_compute; reflexivity.
Qed.

(** The "valid deployment" case of the test, patched and patched again. *)
Lemma Patch_idempotent_witness :
  Patch (yaml:=fixture.codec) fixture.deploymentYAML fixture.resCfg
  = ([], (Some fixture.deploymentYAML', None))
  ∧ Patch (yaml:=fixture.codec) fixture.deploymentYAML' fixture.resCfg
    = ([], (Some fixture.deploymentYAML', None)).
Proof.
  assert (Patch (yaml:=fixture.codec) fixture.deploymentYAML fixture.resCfg
          = ([], (Some fixture.deploymentYAML', None))) as Hp
    by (vm_compute; reflexivity).
  split; [exact Hp|].
  exact (proj1 (Patch_idempotent (yaml:=fixture.codec) (roundtrip:=fixture_round_trip)
                  fixture.deploymentYAML fixture.resCfg []
                  fixture.deploymentYAML' Hp)).
Defined.

(** ** [updateResource], the switch-based patcher *)

Section update_resource.
Context {yaml : YAML}.

Lemma switchKind_kindName T file :
  switchKind (kindName T) file
  = switchArm T (containersOf T)
      (match T with TPod => false | _ => true end) file.
Proof. destruct T; reflexivity. Qed.

(** On Deployment, DaemonSet, StatefulSet and Job the switch leaves
    [manifest] pointing at the decoded object, and [updateResource]
    returns what [Patch] returns. *)
Lemma updateResource_template_kinds T file rc found (obj : GoStruct T)
    c0 rest out :
  T ≠ TPod →
  Unmarshal_typeMeta file = inr found →
  default "" found = kindName T →
  Unmarshal T file = inr obj →
  load (containersOf T) obj = c0 :: rest →
  Marshal (Ptr T (withResources T (newResources rc) obj)) = inr out →
  updateResource file rc = (notice (kindName T) (c0 :: rest), ok out)
  ∧ Patch file rc = (notice (kindName T) (c0 :: rest), ok out).
Proof.
  intros HT Hk Hn Hu Hl Hm. split.
  - unfold updateResource. rewrite getK8SKind_getKind.
    rewrite (getKind_found _ _ Hk), Hn. cbv beta iota.
    rewrite switchKind_kindName. unfold switchArm, unmarshalK8sResource.
    rewrite Hu. cbn [containers manifest]. rewrite Hl.
    unfold withResources in Hm. rewrite Hl in Hm. cbn [patchFirst] in Hm.
    destruct T; try done; by rewrite Hm.
  - by rewrite (Patch_marshals _ _ _ _ _ _ _ Hk Hn Hu Hl), Hm.
Qed.

(** C1, where the code departs from it.  The Pod arm of the switch in
    [updateResource] reads the container list but never assigns
    [manifest].  On a Pod manifest with exactly one container the
    function therefore serialises a nil interface: it returns whatever
    [yaml.Marshal(nil)] returns, for every quantity set, and not the Pod
    with its container's resources set. *)
Theorem updateResource_Pod_marshals_nil file rc found (pod : Pod) c out :
  Unmarshal_typeMeta file = inr found →
  default "" found = "Pod" →
  Unmarshal TPod file = inr pod →
  Containers (pod_Spec pod) = [c] →
  Marshal Nil = inr out →
  updateResource file rc = ([], (Some out, None)).
Proof.
  intros Hk Hn Hu Hl Hm.
  unfold updateResource. rewrite getK8SKind_getKind.
  rewrite (getKind_found _ _ Hk), Hn. cbv beta iota.
  change "Pod" with (kindName TPod). rewrite switchKind_kindName.
  unfold switchArm, unmarshalK8sResource. rewrite Hu.
  cbn [containers manifest load containersOf Spec_Containers]. rewrite Hl.
  by rewrite Hm.
Qed.

End update_resource.

(** A bare Pod with one container: [updateResource] answers with the YAML
    text of nil, while [Patch] answers with the patched Pod. *)
Lemma updateResource_Pod_marshals_nil_witness :
  updateResource (yaml:=fixture.codec) fixture.podYAML fixture.resCfg
  = ([], (Some ("null" +:+ LF), None))
  ∧ Patch (yaml:=fixture.codec) fixture.podYAML fixture.resCfg
    = ([], (Some fixture.podYAML', None)).
Proof.
  split.
  - apply (updateResource_Pod_marshals_nil (yaml:=fixture.codec) fixture.podYAML
             fixture.resCfg (Some "Pod") fixture.pod fixture.testContainer).
    + vm_compute. reflexivity.
    + reflexivity.
    + vm_compute. reflexivity.
    + reflexivity.
    + vm_compute. reflexivity.
  - vm_compute. reflexivity.
Defined.

(** ** [updateEnvFile] *)

Lemma Split_not_nil s sep : Split s sep ≠ [].
Proof.
  destruct s as [|c s]; simpl; [done|].
  destruct (Ascii.eqb c sep); [done|]. by destruct (Split s sep).
Qed.

Lemma trailingLFs_le s : trailingLFs s ≤ String.length s.
Proof.
  induction s as [|c s IH]; simpl; [lia|].
  destruct (Ascii.eqb c "010" && (trailingLFs s =? String.length s)); lia.
Qed.

Lemma string_length_app a b :
  String.length (a +:+ b) = String.length a + String.length b.
Proof. induction a as [|c a IH]; simpl; [done|]. by rewrite IH. Qed.

(** A text that ends with something else than a line feed keeps its count
    whatever is put in front of it. *)
Lemma trailingLFs_app_r a b :
  trailingLFs b < String.length b →
  trailingLFs (a +:+ b) = trailingLFs b.
Proof.
  intros Hb. induction a as [|c a IH]; simpl; [done|].
  rewrite IH, string_length_app.
  destruct (Nat.eqb_spec (trailingLFs b) (String.length a + String.length b));
    [lia|]. by rewrite andb_false_r.
Qed.

Lemma trailingLFs_cons c s :
  trailingLFs (String c s)
  = if Ascii.eqb c "010" && (trailingLFs s =? String.length s)
    then S (trailingLFs s) else trailingLFs s.
Proof. reflexivity. Qed.

Lemma trailingLFs_snoc s : trailingLFs (s +:+ LF) = S (trailingLFs s).
Proof.
  induction s as [|c s IH]; [reflexivity|].
  change (String c s +:+ LF) with (String c (s +:+ LF)).
  rewrite !trailingLFs_cons, IH, string_length_app.
  change (String.length LF) with 1. rewrite Nat.add_1_r.
  change (S (trailingLFs s) =? S (String.length s))
    with (trailingLFs s =? String.length s).
  by destruct (Ascii.eqb c "010" && (trailingLFs s =? String.length s)).
Qed.

Lemma Split_line_no_trailingLF s line :
  line ∈ Split s "010" → trailingLFs line = 0.
Proof.
  revert line. induction s as [|c s IH]; intros line; simpl.
  - intros ->%list_elem_of_singleton. reflexivity.
  - destruct (Ascii.eqb c "010") eqn:Hc.
    + intros [->|Hin]%elem_of_cons; [reflexivity|by apply IH].
    + destruct (Split s "010") as [|l ls] eqn:Hs; [by destruct (Split_not_nil s "010")|].
      intros [->|Hin]%elem_of_cons.
      * simpl. rewrite Hc. simpl. apply IH, list_elem_of_here.
      * by apply IH, list_elem_of_further.
Qed.

Lemma nonEmpty_elem_of lines line :
  line ∈ nonEmpty lines ↔ line ≠ "" ∧ line ∈ lines.
Proof. unfold nonEmpty. by rewrite list_elem_of_filter. Qed.

Lemma newLine_not_empty key value : key +:+ "=" +:+ value ≠ "".
Proof. by destruct key. Qed.

Lemma newLine_trailingLFs key value :
  trailingLFs (key +:+ "=" +:+ value) = trailingLFs value.
Proof.
  assert (trailingLFs ("=" +:+ value) = trailingLFs value) as Heq
    by reflexivity.
  rewrite trailingLFs_app_r; [exact Heq|]. rewrite Heq.
  change (String.length ("=" +:+ value)) with (S (String.length value)).
  pose proof (trailingLFs_le value). lia.
Qed.

Lemma Join_cons_not_empty line lines sep : line ≠ "" → Join (line :: lines) sep ≠ "".
Proof. destruct line; [done|]. by destruct lines. Qed.

Lemma Join_trailingLFs lines :
  Forall (λ line, line ≠ "" ∧ trailingLFs line = 0) lines →
  trailingLFs (Join lines LF) = 0.
Proof.
  induction 1 as [|line lines [Hne Hz] Hall IH]; [reflexivity|].
  destruct lines as [|line' lines]; [exact Hz|].
  change (Join (line :: line' :: lines) LF)
    with (line +:+ LF +:+ Join (line' :: lines) LF).
  apply Forall_cons_1 in Hall as [[Hne' _] _].
  assert (Join (line' :: lines) LF ≠ "") as HJ by by apply Join_cons_not_empty.
  assert (0 < String.length (Join (line' :: lines) LF)) as Hlen
    by (destruct (Join (line' :: lines) LF); [done|simpl; lia]).
  assert (trailingLFs (LF +:+ Join (line' :: lines) LF) = 0) as HLJ
    by (rewrite trailingLFs_app_r; lia).
  rewrite trailingLFs_app_r; [exact HLJ|].
  rewrite HLJ, string_length_app. lia.
Qed.

Lemma firstWithKey_Some key lines i :
  firstWithKey key lines = Some i →
  (∃ line, lines !! i = Some line ∧ HasPrefix line (key +:+ "=") = true)
  ∧ ∀ j line, j < i → lines !! j = Some line →
              HasPrefix line (key +:+ "=") = false.
Proof.
  revert i. induction lines as [|l lines IH]; intros i; simpl; [done|].
  destruct (HasPrefix l (key +:+ "=")) eqn:Hp.
  - intros [= <-]. split; [by exists l|]. intros j line Hj. lia.
  - destruct (firstWithKey key lines) as [i'|]; simpl; [|done].
    intros [= <-]. destruct (IH i' eq_refl) as [Hat Hbefore]. split; [done|].
    intros [|j] line Hj; simpl; [by intros [= <-]|].
    apply Hbefore. lia.
Qed.

Lemma firstWithKey_None key lines :
  firstWithKey key lines = None →
  ∀ line, line ∈ lines → HasPrefix line (key +:+ "=") = false.
Proof.
  induction lines as [|l lines IH]; simpl; [by intros _ line ?%elem_of_nil|].
  destruct (HasPrefix l (key +:+ "=")) eqn:Hp; [done|].
  destruct (firstWithKey key lines); simpl; [done|]. intros _ line.
  intros [->|Hin]%elem_of_cons; [done|by apply IH].
Qed.

(** The loop with [break] rewrites position [firstWithKey] and nothing else. *)
Lemma replaceFirst_firstWithKey key newLine lines :
  replaceFirst key newLine lines
  = match firstWithKey key lines with
    | Some i => (take i lines ++ newLine :: drop (S i) lines, true)
    | None => (lines, false)
    end.
Proof.
  induction lines as [|l lines IH]; simpl; [done|].
  destruct (HasPrefix l (key +:+ "=")); [by rewrite drop_0|].
  rewrite IH. by destruct (firstWithKey key lines).
Qed.

Lemma envLines_firstWithKey key value input :
  envLines key value input
  = let old := nonEmpty (Split input "010") in
    match firstWithKey key old with
    | Some i => take i old ++ (key +:+ "=" +:+ value) :: drop (S i) old
    | None => old ++ [key +:+ "=" +:+ value]
    end.
Proof.
  unfold envLines. rewrite replaceFirst_firstWithKey.
  by destruct (firstWithKey key (nonEmpty (Split input "010"))).
Qed.

(** Every line of the new file is the new line or a non-empty line of the
    old one. *)
Lemma envLines_elem_of key value input line :
  line ∈ envLines key value input →
  line = key +:+ "=" +:+ value
  ∨ line ∈ nonEmpty (Split input "010").
Proof.
  rewrite envLines_firstWithKey. cbv zeta.
  destruct (firstWithKey key (nonEmpty (Split input "010"))) as [i|].
  - rewrite elem_of_app, elem_of_cons.
    intros [Hin|[->|Hin]]; [right|by left|right].
    + by eapply subseteq_take.
    + by eapply subseteq_drop.
  - rewrite elem_of_app, list_elem_of_singleton. tauto.
Qed.

(** C10, as the code has it.  For every old content, key and value, the
    text written back is the final line list joined by line feeds plus one
    line feed, where the list (1) has no empty line and starts from exactly
    the non-empty lines of the old content, (2) has [key=value] in place of
    the first of them that starts with [key=], or appended after them when
    none does, (3) has every other line unchanged and in its old position,
    and (4) the text ends with exactly one line feed whenever the value
    does not itself end with one. *)
Theorem envOutput_rewrites_lines input key value :
  let old := nonEmpty (Split input "010") in
  let newLine := key +:+ "=" +:+ value in
  let lines := envLines key value input in
  envOutput key value input = Join lines LF +:+ LF
  ∧ Forall (λ line, line ≠ "") lines
  ∧ (∀ line, line ∈ old ↔ line ≠ "" ∧ line ∈ Split input "010")
  ∧ match firstWithKey key old with
    | Some i =>
        (∃ line, old !! i = Some line ∧ HasPrefix line (key +:+ "=") = true)
        ∧ (∀ j line, j < i → old !! j = Some line →
                     HasPrefix line (key +:+ "=") = false)
        ∧ lines = take i old ++ newLine :: drop (S i) old
    | None =>
        (∀ line, line ∈ old → HasPrefix line (key +:+ "=") = false)
        ∧ lines = old ++ [newLine]
    end
  ∧ (trailingLFs value = 0 → trailingLFs (envOutput key value input) = 1).
Proof.
  intros old newLine lines.
  assert (∀ line, line ∈ lines → line = newLine ∨ line ∈ old) as Hfrom
    by apply envLines_elem_of.
  split; [reflexivity|]. split; [|split; [|split]].
  - apply Forall_forall. intros line [->|Hin]%Hfrom.
    + apply newLine_not_empty.
    + by apply nonEmpty_elem_of in Hin as [? _].
  - intros line. apply nonEmpty_elem_of.
  - pose proof (envLines_firstWithKey key value input) as Hl. cbv zeta in Hl.
    fold old lines newLine in Hl.
    destruct (firstWithKey key old) as [i|] eqn:Hi.
    + destruct (firstWithKey_Some _ _ _ Hi) as [Hat Hbefore]. done.
    + split; [by apply firstWithKey_None|done].
  - intros Hvalue. unfold envOutput. rewrite trailingLFs_snoc. f_equal.
    apply Join_trailingLFs, Forall_forall. intros line [->|Hin]%Hfrom.
    + split; [apply newLine_not_empty|]. unfold newLine.
      by rewrite newLine_trailingLFs.
    + apply nonEmpty_elem_of in Hin as [Hne Hin].
      split; [done|by eapply Split_line_no_trailingLF].
Qed.

(** C10, as worded, fails for a value that ends with a line feed: written
    to an empty file, the text then ends with two. *)
Lemma envOutput_trailing_newline_counterexample :
  ¬ (∀ input key value, trailingLFs (envOutput key value input) = 1).
Proof.
  intros Hone. specialize (Hone "" "REPO_URLS" ("group/app" +:+ LF)).
  vm_compute in Hone. discriminate Hone.
Qed.

(** An old file with an empty line and an earlier REPO_URLS entry. *)
Lemma envOutput_rewrites_lines_witness :
  let input := "ENV=dev" +:+ LF +:+ LF +:+ "REPO_URLS=old" +:+ LF
               +:+ "BRANCH=main" +:+ LF in
  envOutput "REPO_URLS" "group/app,group/api" input
  = "ENV=dev" +:+ LF +:+ "REPO_URLS=group/app,group/api" +:+ LF
    +:+ "BRANCH=main" +:+ LF
  ∧ trailingLFs (envOutput "REPO_URLS" "group/app,group/api" input) = 1.
Proof.
  intros input. split; [vm_compute; reflexivity|].
  destruct (envOutput_rewrites_lines input "REPO_URLS" "group/app,group/api")
    as (_ & _ & _ & _ & Hone).
  apply Hone. vm_compute. reflexivity.
Defined.

(** A missing file reads as empty: the new file is the one line. *)
Lemma updateEnvFile_NotExist key value :
  updateEnvFile key value NotExist None
  = inr ((key +:+ "=" +:+ value) +:+ LF).
Proof. reflexivity. Qed.

(** Whenever the file could be read and written, its new content is the
    rewriting of the old one. *)
Lemma updateEnvFile_Read key value input :
  updateEnvFile key value (Read input) None = inr (envOutput key value input).
Proof. reflexivity. Qed.

(** ** [strings.Split] and [strings.Join] *)

Lemma Split_length s sep : length (Split s sep) = S (occurrences sep s).
Proof.
  induction s as [|c s IH]; simpl; [done|].
  destruct (Ascii.eqb c sep); simpl; [by rewrite IH|].
  destruct (Split s sep) as [|line lines] eqn:Hs;
    [by destruct (Split_not_nil s sep)|].
  simpl in *. done.
Qed.

Lemma occurrences_app c a b :
  occurrences c (a +:+ b) = occurrences c a + occurrences c b.
Proof. induction a as [|c' a IH]; simpl; [done|]. rewrite IH. lia. Qed.

Lemma Split_without_sep s sep : occurrences sep s = 0 → Split s sep = [s].
Proof.
  induction s as [|c s IH]; simpl; [done|].
  destruct (Ascii.eqb c sep); simpl; [done|]. intros Hs. by rewrite IH.
Qed.

Lemma Split_app_sep s rest sep :
  occurrences sep s = 0 →
  Split (s +:+ String sep rest) sep = s :: Split rest sep.
Proof.
  induction s as [|c s IH]; simpl.
  - intros _. by rewrite Ascii.eqb_refl.
  - destruct (Ascii.eqb c sep); simpl; [done|]. intros Hs. by rewrite IH.
Qed.

Lemma Split_elem_without_sep s sep line :
  line ∈ Split s sep → occurrences sep line = 0.
Proof.
  revert line. induction s as [|c s IH]; intros line; simpl.
  - by intros ->%list_elem_of_singleton.
  - destruct (Ascii.eqb c sep) eqn:Hc.
    + intros [->|Hin]%elem_of_cons; [done|by apply IH].
    + destruct (Split s sep) as [|l ls] eqn:Hs;
        [by destruct (Split_not_nil s sep)|].
      intros [->|Hin]%elem_of_cons.
      * simpl. rewrite Hc. simpl. apply IH, list_elem_of_here.
      * by apply IH, list_elem_of_further.
Qed.

(** Splitting at a separator and joining with it again gives the text
    back, whatever the text. *)
Theorem Join_Split s sep : Join (Split s sep) (String sep "") = s.
Proof.
  induction s as [|c s IH]; simpl; [done|].
  destruct (Ascii.eqb_spec c sep) as [->|Hc].
  - destruct (Split s sep) as [|line lines] eqn:Hs;
      [by destruct (Split_not_nil s sep)|].
    change (Join ("" :: line :: lines) (String sep ""))
      with (String sep (Join (line :: lines) (String sep ""))).
    by rewrite IH.
  - destruct (Split s sep) as [|line lines] eqn:Hs;
      [by destruct (Split_not_nil s sep)|].
    rewrite <-IH. by destruct lines.
Qed.

(** Joining a non-empty list of texts that do not contain the separator
    and splitting the result gives the list back. *)
Theorem Split_Join elems sep :
  elems ≠ [] →
  Forall (λ e, occurrences sep e = 0) elems →
  Split (Join elems (String sep "")) sep = elems.
Proof.
  intros Hne Hall. induction Hall as [|e elems He Hall IH]; [done|].
  destruct elems as [|e' elems]; [by apply Split_without_sep|].
  change (Join (e :: e' :: elems) (String sep ""))
    with (e +:+ String sep (Join (e' :: elems) (String sep ""))).
  rewrite Split_app_sep by done. by rewrite IH.
Qed.

Lemma Split_Join_witness :
  Split (Join ["group/app"; "group/api"; "group/web"] ",") ","
  = ["group/app"; "group/api"; "group/web"].
Proof.
  apply (Split_Join ["group/app"; "group/api"; "group/web"] ",").
  - discriminate.
  - repeat constructor.
Defined.

(** ** [updateEnvFile], run again *)

Lemma prefix_app a b : String.prefix a (a +:+ b) = true.
Proof.
  induction a as [|c a IH]; simpl; [by destruct b|].
  destruct (Ascii.ascii_dec c c); [done|congruence].
Qed.

Lemma string_app_assoc a b c : (a +:+ b) +:+ c = a +:+ b +:+ c.
Proof.
  induction a as [|x a IH]; [done|].
  change (String x ((a +:+ b) +:+ c) = String x (a +:+ b +:+ c)). by f_equal.
Qed.

Lemma newLine_HasPrefix key value :
  HasPrefix (key +:+ "=" +:+ value) (key +:+ "=") = true.
Proof.
  unfold HasPrefix. rewrite <-string_app_assoc. apply prefix_app.
Qed.

Lemma firstWithKey_app key pre line post :
  (∀ l, l ∈ pre → HasPrefix l (key +:+ "=") = false) →
  HasPrefix line (key +:+ "=") = true →
  firstWithKey key (pre ++ line :: post) = Some (length pre).
Proof.
  intros Hpre Hline. induction pre as [|l pre IH]; simpl.
  - by rewrite Hline.
  - rewrite (Hpre l) by apply list_elem_of_here.
    rewrite IH; [done|]. intros l' Hl'. by apply Hpre, list_elem_of_further.
Qed.

(** In the slice that is joined, the first line that starts with [key=]
    is the new line. *)
Lemma envLines_new_entry key value input :
  ∃ i, firstWithKey key (envLines key value input) = Some i
       ∧ envLines key value input !! i = Some (key +:+ "=" +:+ value).
Proof.
  rewrite envLines_firstWithKey. cbv zeta.
  set (old := nonEmpty (Split input "010")).
  destruct (firstWithKey key old) as [i|] eqn:Hi.
  - destruct (firstWithKey_Some _ _ _ Hi) as [(line & Hat & _) Hbefore].
    assert (i < length old) as Hlt by by eapply lookup_lt_Some.
    exists i. split.
    + rewrite <-(length_take_le old i) at 3 by lia.
      apply firstWithKey_app; [|apply newLine_HasPrefix].
      intros l (j & Hj & Hji)%elem_of_take. by eapply Hbefore.
    + rewrite lookup_app_r by (rewrite length_take_le; lia).
      rewrite length_take_le by lia. by rewrite Nat.sub_diag.
  - exists (length old). split.
    + apply firstWithKey_app; [|apply newLine_HasPrefix].
      by apply firstWithKey_None.
    + by rewrite lookup_app_r, Nat.sub_diag.
Qed.

Lemma string_app_nil_r s : s +:+ "" = s.
Proof.
  induction s as [|c s IH]; [done|].
  change (String c (s +:+ "") = String c s). by f_equal.
Qed.

Lemma Join_snoc_empty lines sep :
  lines ≠ [] → Join (lines ++ [""]) sep = Join lines sep +:+ sep.
Proof.
  intros Hne. induction lines as [|l lines IH]; [done|].
  destruct lines as [|l' lines].
  - change (l +:+ sep +:+ "" = l +:+ sep). by rewrite string_app_nil_r.
  - change (l +:+ sep +:+ Join ((l' :: lines) ++ [""]) sep
            = (l +:+ sep +:+ Join (l' :: lines) sep) +:+ sep).
    rewrite IH by done. by rewrite !string_app_assoc.
Qed.

Lemma envLines_not_nil key value input : envLines key value input ≠ [].
Proof.
  destruct (envLines_new_entry key value input) as (i & _ & Hi).
  intros Hnil. by rewrite Hnil in Hi.
Qed.

Lemma nonEmpty_id lines :
  Forall (λ line, line ≠ "") lines → nonEmpty (lines ++ [""]) = lines.
Proof.
  intros Hall. unfold nonEmpty. rewrite filter_app.
  rewrite (filter_singleton_False _ "" []) by (by intros ?).
  rewrite app_nil_r. induction Hall as [|l lines Hl Hall IH]; [done|].
  by rewrite filter_cons_True, IH.
Qed.

Lemma envLines_not_empty key value input :
  Forall (λ line, line ≠ "") (envLines key value input).
Proof.
  apply Forall_forall. intros line [->|Hin]%envLines_elem_of.
  - apply newLine_not_empty.
  - by apply nonEmpty_elem_of in Hin as [? _].
Qed.

(** The lines of the written text, for a key and a value without line
    feeds: the joined slice, and the empty text after the last line
    feed. *)
Lemma Split_envOutput key value input :
  occurrences "010" key = 0 →
  occurrences "010" value = 0 →
  Split (envOutput key value input) "010" = envLines key value input ++ [""].
Proof.
  intros Hkey Hvalue. unfold envOutput.
  rewrite <-Join_snoc_empty by apply envLines_not_nil.
  change LF with (String "010" "").
  apply Split_Join; [by destruct (envLines key value input)|].
  apply Forall_app. split; [|by repeat constructor].
  apply Forall_forall. intros line [->|Hin]%envLines_elem_of.
  - rewrite !occurrences_app, Hkey, Hvalue. reflexivity.
  - apply nonEmpty_elem_of in Hin as [_ Hin].
    by eapply Split_elem_without_sep.
Qed.

Lemma firstWithKey_app_l key lines more i :
  firstWithKey key lines = Some i → firstWithKey key (lines ++ more) = Some i.
Proof.
  revert i. induction lines as [|l lines IH]; intros i; simpl; [done|].
  destruct (HasPrefix l (key +:+ "=")); [done|].
  destruct (firstWithKey key lines) as [j|]; simpl; [|done].
  intros [= <-]. by rewrite (IH j).
Qed.

(** X1. For a key and a value without line feeds, whatever the old
    content: among the lines of the text that is written, the first one
    that starts with [key=] is the line [key=value].  A reader who takes
    the first entry of the key finds the value just written. *)
Theorem envOutput_first_entry key value input :
  occurrences "010" key = 0 →
  occurrences "010" value = 0 →
  ∃ i, firstWithKey key (Split (envOutput key value input) "010") = Some i
       ∧ Split (envOutput key value input) "010" !! i
         = Some (key +:+ "=" +:+ value).
Proof.
  intros Hkey Hvalue. rewrite Split_envOutput by done.
  destruct (envLines_new_entry key value input) as (i & Hfirst & Hi).
  exists i. split; [by apply firstWithKey_app_l|].
  by apply lookup_app_l_Some.
Qed.

(** X2. For a key and a value without line feeds, rewriting the file a
    second time with the same key and value changes nothing. *)
Theorem envOutput_idempotent key value input :
  occurrences "010" key = 0 →
  occurrences "010" value = 0 →
  envOutput key value (envOutput key value input) = envOutput key value input.
Proof.
  intros Hkey Hvalue.
  set (lines := envLines key value input).
  assert (envLines key value (envOutput key value input) = lines) as Hsame.
  { rewrite envLines_firstWithKey. cbv zeta.
    rewrite Split_envOutput by done.
    rewrite nonEmpty_id by apply envLines_not_empty. subst lines.
    destruct (envLines_new_entry key value input) as (i & -> & Hi).
    by apply take_drop_middle. }
  unfold envOutput at 1. by rewrite Hsame.
Qed.

(** An old file with an entry of the key, in second place. *)
Lemma envOutput_first_entry_witness :
  let written := envOutput "REPO_URLS" "group/app,group/api"
                   ("ENV=dev" +:+ LF +:+ "REPO_URLS=old" +:+ LF
                    +:+ "REPO_URLS=older" +:+ LF) in
  ∃ i, firstWithKey "REPO_URLS" (Split written "010") = Some i
       ∧ Split written "010" !! i = Some "REPO_URLS=group/app,group/api".
Proof.
  apply (envOutput_first_entry "REPO_URLS" "group/app,group/api");
    vm_compute; reflexivity.
Defined.

Lemma envOutput_idempotent_witness :
  let once := envOutput "REPO_URLS" "group/app,group/api"
                ("ENV=dev" +:+ LF +:+ LF +:+ "REPO_URLS=old" +:+ LF) in
  envOutput "REPO_URLS" "group/app,group/api" once = once.
Proof.
  apply (envOutput_idempotent "REPO_URLS" "group/app,group/api");
    vm_compute; reflexivity.
Defined.

(** ** The environment loader *)

Lemma getEnv_not_empty env key defaultVal :
  defaultVal ≠ "" → config.getEnv env key defaultVal ≠ "".
Proof.
  intros Hd. unfold config.getEnv. destruct (env !! key) as [val|]; [|done].
  by case_decide.
Qed.

Lemma foldl_snoc_fmap {A B} (f : A → B) acc l :
  foldl (λ ys x, ys ++ [f x]) acc l = acc ++ (f <$> l).
Proof.
  revert acc. induction l as [|x l IH]; intros acc; simpl.
  - by rewrite app_nil_r.
  - by rewrite IH, <-app_assoc.
Qed.

(** What [os.LookupEnv] finds once [godotenv.Load] has returned: the
    variable of the environment, otherwise the entry of the file if
    [os.Setenv] took it. *)
Lemma godotenv_Load_lookup dotenv env key :
  (godotenv_Load dotenv env).2 !! key
  = match env !! key with
    | Some val => Some val
    | None =>
        match dotenv with
        | inl _ => None
        | inr envMap =>
            match envMap !! key with
            | Some val => if settable key val then Some val else None
            | None => None
            end
        end
    end.
Proof.
  destruct dotenv as [err|envMap]; simpl; [by destruct (env !! key)|].
  apply (map_fold_weak_ind
           (λ (r : Environ) (m : Environ),
              r !! key = match env !! key with
                         | Some val => Some val
                         | None =>
                             match m !! key with
                             | Some val =>
                                 if settable key val then Some val else None
                             | None => None
                             end
                         end)).
  - rewrite lookup_empty. by destruct (env !! key).
  - intros i x m r Hi IH. destruct (decide (key = i)) as [->|Hne].
    + rewrite lookup_insert_eq. case_decide as Hset.
      * destruct Hset as [val Hval]. by rewrite IH, Hval.
      * apply eq_None_not_Some in Hset. rewrite Hset in IH |- *.
        rewrite Hi in IH. unfold Setenv.
        destruct (settable i x); simpl; [by rewrite lookup_insert_eq|done].
    + rewrite lookup_insert_ne by done.
      case_decide as Hset; [done|]. unfold Setenv.
      destruct (settable i x); simpl; [by rewrite lookup_insert_ne|done].
Qed.

Lemma godotenv_Load_keeps dotenv env key val :
  env !! key = Some val → (godotenv_Load dotenv env).2 !! key = Some val.
Proof. intros Hkey. by rewrite godotenv_Load_lookup, Hkey. Qed.

(** A variable that is set to the empty text reads like one that neither
    the environment nor the file has. *)
Lemma getEnv_empty_hides dotenv env key key' defaultVal :
  env !! key = Some "" →
  config.getEnv (godotenv_Load (sum_map id (delete key) dotenv)
                   (delete key env)).2 key' defaultVal
  = config.getEnv (godotenv_Load dotenv env).2 key' defaultVal.
Proof.
  intros Hempty. unfold config.getEnv. rewrite !godotenv_Load_lookup.
  destruct (decide (key = key')) as [<-|Hne].
  - rewrite lookup_delete_eq, Hempty.
    destruct dotenv as [err|envMap]; simpl; [done|].
    by rewrite lookup_delete_eq.
  - rewrite lookup_delete_ne by done.
    destruct dotenv as [err|envMap]; simpl; [done|].
    by rewrite lookup_delete_ne.
Qed.

Section loader_facts.
Variable TrimSpace : string → string.

Lemma Load_RepoURLs dotenv env :
  config.RepoURLs (config.Load TrimSpace dotenv env)
  = TrimSpace <$> Split (config.getEnv (godotenv_Load dotenv env).2
                           "REPO_URLS" "__URL_1__,__URL_2__") ",".
Proof. unfold config.Load. simpl. by rewrite foldl_snoc_fmap. Qed.

(** X3. Whatever the file .env and the environment, [Load] returns a
    configuration whose environment name, base URL, branch and four
    quantity texts are not empty, and whose repository list has one entry
    more than the effective REPO_URLS text has commas, so at least one. *)
Theorem Load_never_empty dotenv env :
  let c := config.Load TrimSpace dotenv env in
  config.Env c ≠ "" ∧ config.BaseURL c ≠ "" ∧ config.Branch c ≠ ""
  ∧ config.CPULimit c ≠ "" ∧ config.MemLimit c ≠ ""
  ∧ config.CPURequest c ≠ "" ∧ config.MemRequest c ≠ ""
  ∧ length (config.RepoURLs c)
    = S (occurrences ","
           (config.getEnv (godotenv_Load dotenv env).2
              "REPO_URLS" "__URL_1__,__URL_2__")).
Proof.
  cbv zeta. repeat split; try (by apply getEnv_not_empty).
  by rewrite Load_RepoURLs, length_fmap, Split_length.
Qed.

(** X4. A variable that the process environment sets to the empty text
    hides the entry of the file .env and counts as unset: [Load] returns
    what it returns when the variable is taken out of both. *)
Theorem Load_empty_hides_dotenv dotenv env key :
  env !! key = Some "" →
  config.Load TrimSpace (sum_map id (delete key) dotenv) (delete key env)
  = config.Load TrimSpace dotenv env.
Proof.
  intros Hempty. unfold config.Load. cbv zeta.
  by rewrite !(getEnv_empty_hides dotenv env key _ _ Hempty).
Qed.

(** X5. What the repository script joins with commas, [Load] splits back:
    when REPO_URLS holds the non-empty comma-joined text of paths that
    contain no comma and that [TrimSpace] leaves alone, the loaded
    repository list is that list of paths, whatever the file .env says. *)
Theorem Load_reads_joined_paths dotenv env paths :
  env !! "REPO_URLS" = Some (Join paths ",") →
  Join paths "," ≠ "" →
  Forall (λ path, occurrences "," path = 0 ∧ TrimSpace path = path) paths →
  config.RepoURLs (config.Load TrimSpace dotenv env) = paths.
Proof.
  intros Henv Hne Hpaths. rewrite Load_RepoURLs.
  unfold config.getEnv. rewrite (godotenv_Load_keeps _ _ _ _ Henv).
  rewrite decide_True by done.
  rewrite Split_Join.
  - apply list_eq. intros i. rewrite list_lookup_fmap.
    destruct (paths !! i) as [path|] eqn:Hi; [|done]. simpl. f_equal.
    by apply (Forall_lookup_1 _ _ _ _ Hpaths Hi).
  - by intros ->.
  - eapply Forall_impl; [exact Hpaths|]. by intros ? [? _].
Qed.

End loader_facts.

(** BRANCH is set but empty in the environment and is main in the file:
    the branch loaded is the default, as without either. *)
Lemma Load_empty_hides_dotenv_witness :
  let env : Environ := {[ "BRANCH" := ""; "ENV" := "dev" ]} in
  let dotenv : error + Environ := inr {[ "BRANCH" := "main"; "ENV" := "prod" ]} in
  config.Load asciiTrimSpace (sum_map id (delete "BRANCH") dotenv)
    (delete "BRANCH" env)
  = config.Load asciiTrimSpace dotenv env
  ∧ config.Branch (config.Load asciiTrimSpace dotenv env) = "__BRANCH__".
Proof.
  intros env dotenv. split; [|vm_compute; reflexivity].
  apply (Load_empty_hides_dotenv asciiTrimSpace dotenv env "BRANCH").
  vm_compute. reflexivity.
Defined.

(** The file .env has its own REPO_URLS; the environment's wins. *)
Lemma Load_reads_joined_paths_witness :
  config.RepoURLs
    (config.Load asciiTrimSpace (inr {[ "REPO_URLS" := "group/old" ]})
       {[ "REPO_URLS" := Join ["group/app"; "group/api"] "," ]})
  = ["group/app"; "group/api"].
Proof.
  apply (Load_reads_joined_paths asciiTrimSpace
           (inr {[ "REPO_URLS" := "group/old" ]})
           {[ "REPO_URLS" := Join ["group/app"; "group/api"] "," ]}
           ["group/app"; "group/api"]).
  - vm_compute. reflexivity.
  - vm_compute. discriminate.
  - repeat constructor.
Defined.

(** The third case of the loader's test: blanks are trimmed, an empty
    entry stays. *)
Lemma Load_spaces_and_empty_entries :
  config.RepoURLs
    (config.Load asciiTrimSpace (inl "open .env: no such file or directory")
       {[ "REPO_URLS" := " url1.git , , url2.git " ]})
  = ["url1.git"; ""; "url2.git"].
Proof. vm_compute. reflexivity. Qed.

(** ** [Validate] *)

Lemma firstEmpty_None i repos :
  configfile.firstEmpty i repos = None ↔ "" ∉ repos.
Proof.
  revert i. induction repos as [|repo repos IH]; intros i; simpl.
  - split; [intros _; apply not_elem_of_nil|done].
  - rewrite not_elem_of_cons. case_decide as Hrepo.
    + split; [done|]. intros [Hne _]. by subst.
    + rewrite IH. split.
      * intros Hout. split; [congruence|exact Hout].
      * intros [_ Hout]. exact Hout.
Qed.

Lemma firstEmpty_Some i repos j :
  repos !! j = Some "" →
  (∀ k, k < j → repos !! k ≠ Some "") →
  configfile.firstEmpty i repos = Some (i + j).
Proof.
  revert i j. induction repos as [|repo repos IH]; intros i j; [done|].
  destruct j as [|j]; simpl.
  - intros [= ->] _. rewrite decide_True by done. f_equal. lia.
  - intros Hj Hbefore. rewrite decide_False.
    + rewrite (IH (S i) j Hj); [f_equal; lia|].
      intros k Hk. apply (Hbefore (S k)). lia.
    + intros ->. by apply (Hbefore 0); [lia|].
Qed.

(** X6. [Validate] returns nil exactly when the base URL and the branch
    are not empty, there is at least one repository, no repository path
    is empty, and at least one of the four resource texts is set.  The
    environment name plays no part. *)
Theorem Validate_nil_iff (c : configfile.Config) :
  configfile.Validate c = None
  ↔ configfile.BaseURL (configfile.Git c) ≠ ""
    ∧ configfile.Branch (configfile.Git c) ≠ ""
    ∧ configfile.Repositories c ≠ []
    ∧ ("" ∉ configfile.Repositories c)
    ∧ ¬ (configfile.CPU (configfile.Limits (configfile.Resources c)) = ""
         ∧ configfile.Memory (configfile.Limits (configfile.Resources c)) = ""
         ∧ configfile.CPU (configfile.Requests (configfile.Resources c)) = ""
         ∧ configfile.Memory (configfile.Requests (configfile.Resources c)) = "").
Proof.
  unfold configfile.Validate.
  destruct (decide (configfile.BaseURL (configfile.Git c) = "")) as [Hurl|Hurl];
    [split; [done|tauto]|].
  destruct (decide (configfile.Branch (configfile.Git c) = "")) as [Hbr|Hbr];
    [split; [done|tauto]|].
  destruct (decide (length (configfile.Repositories c) = 0)) as [Hlen|Hlen].
  { split; [done|]. intros (_&_&Hne&_).
    by destruct (configfile.Repositories c). }
  assert (configfile.Repositories c ≠ []) as Hne by (by intros Hnil; rewrite Hnil in Hlen).
  destruct (configfile.firstEmpty 0 (configfile.Repositories c)) as [i|] eqn:Hi.
  { split; [done|]. intros (_&_&_&Hin&_).
    pose proof (proj2 (firstEmpty_None 0 _) Hin). congruence. }
  apply firstEmpty_None in Hi.
  case_decide as Hres; [split; [done|tauto]|]. by split.
Qed.

(** X7. With base URL and branch set, a repository list that has an empty
    path is rejected with the index of its first empty entry, whatever
    the resources are. *)
Theorem Validate_first_empty_repository (c : configfile.Config) i :
  configfile.BaseURL (configfile.Git c) ≠ "" →
  configfile.Branch (configfile.Git c) ≠ "" →
  configfile.Repositories c !! i = Some "" →
  (∀ k, k < i → configfile.Repositories c !! k ≠ Some "") →
  configfile.Validate c
  = Some ("repository[" +:+ pretty i +:+ "] path cannot be empty").
Proof.
  intros Hurl Hbranch Hi Hbefore. unfold configfile.Validate.
  rewrite !decide_False by done.
  rewrite decide_False by (by destruct (configfile.Repositories c)).
  by rewrite (firstEmpty_Some 0 _ i Hi Hbefore).
Qed.

Lemma Validate_first_empty_repository_witness :
  configfile.Validate
    {| configfile.Git := {| configfile.BaseURL := "https://git.example.com";
                            configfile.Branch := "main" |};
       configfile.Repositories := ["group/app"; ""; "group/api"; ""];
       configfile.Environment := "";
       configfile.Resources :=
         {| configfile.Limits := {| configfile.CPU := ""; configfile.Memory := "" |};
            configfile.Requests := {| configfile.CPU := ""; configfile.Memory := "" |} |} |}
  = Some "repository[1] path cannot be empty".
Proof.
  apply (Validate_first_empty_repository _ 1).
  - discriminate.
  - discriminate.
  - reflexivity.
  - intros [|k] Hk; [discriminate|lia].
Defined.

(** ** [main], call by call *)

Section main_facts.
Context {W Repository Worktree File : Type}.
Context (G : GoGit W Repository Worktree File).
Context {yaml : YAML}.
Variable TrimSpace : string → string.
Variable filepath_Join : list string → string.
Variable MustParse : string → string + Quantity.

(** A call of [Patch] that returns a nil error returns bytes. *)
Lemma Patch_nil_error_bytes file rc stdout manifest :
  Patch file rc = (stdout, (manifest, None)) → ∃ data, manifest = Some data.
Proof.
  intros Hp. pose proof (Patch_run file rc) as Hrun. rewrite Hp in Hrun.
  inversion Hrun as [| | | |found T obj c0 rest Hk Hn Hu Hl Hout].
  match goal with
  | Hret : returned ?r = _ |- _ => destruct r; simpl in Hret; [done|]
  end.
  unfold ok in *. simplify_eq. by eexists.
Qed.

Lemma processRepository_record cfg url w calls stdout :
  ∃ r w' delta stdout',
    processRepository (git:=recording G) filepath_Join MustParse cfg url
      ((w, calls), stdout)
    = (r, ((w', calls ++ delta), stdout'))
    ∧ turnRecord MustParse cfg url r delta.
Proof.
  unfold processRepository, mbind, IO_bind, print, printed, call, mustParse,
    panic, mret, IO_ret, CloneAndWorktree, GetFile, CommitAndPush.
  cbn [recording git_Clone Repository_Worktree Worktree_Add Worktree_Commit
       Repository_Push Filesystem_Open Filesystem_Create io_ReadAll
       File_Write File_Close].
  unfold recorded.
  repeat (case_match; simplify_eq/=);
    rewrite <-?app_assoc; simpl;
    (eexists _, _, _, _; split; [reflexivity|]);
    unfold turnRecord, parsedFrom; simpl;
    (repeat split; try done; try lia;
     try (intros (rc & ? & ? & ? & ?); congruence)).
  all: try (apply Forall_cons; split; [|done]).
  all: match goal with
       | Hp : Patch _ _ = (_, (?m, None)) |- _ =>
           destruct (Patch_nil_error_bytes _ _ _ _ Hp) as [data ->];
           eexists _, _, _; split; [|exact Hp]; done
       end.
Qed.

Lemma forRange_record cfg urls w calls stdout :
  ∃ r w' delta stdout',
    forRange urls
      (processRepository (git:=recording G) filepath_Join MustParse cfg)
      ((w, calls), stdout)
    = (r, ((w', calls ++ delta), stdout'))
    ∧ loopRecord MustParse cfg urls r delta.
Proof.
  revert w calls stdout. induction urls as [|url urls IH]; intros w calls stdout.
  - exists (inr ()), w, [], stdout. rewrite app_nil_r. split; [done|].
    unfold loopRecord. repeat split; try done. by exists [].
  - cbn [forRange]. unfold mbind, IO_bind.
    destruct (processRepository_record cfg url w calls stdout)
      as (r & w1 & d1 & out1 & -> & Hclone & Hwr & Hpush & Hclose & Hok).
    destruct r as [v|[]].
    + exists (inl v), w1, d1, out1. split; [done|].
      repeat split; try done.
      exists [url]. split; [by apply prefix_cons, prefix_nil|].
      split; [done|]. done.
    + destruct (IH w1 (calls ++ d1) out1)
        as (r & w2 & d2 & out2 & -> & (done & Hpre & Hclones & Hall)
            & Hwr2 & Hpush2 & Hclose2 & Hok2).
      exists r, w2, (d1 ++ d2), out2. rewrite app_assoc. split; [done|].
      unfold loopRecord, clones, writes, pushes, closes, handles in *.
      rewrite !omap_app, !length_app.
      repeat split.
      * exists (url :: done). split; [by apply prefix_cons|].
        rewrite Hclone, Hclones. split; [done|]. intros Hr. by rewrite Hall.
      * by apply Forall_app.
      * lia.
      * congruence.
      * done.
Qed.

Lemma main_record dotenv env w :
  ∃ r w' calls stdout,
    main (git:=recording G) TrimSpace filepath_Join MustParse dotenv env ((w, []), [])
    = (r, ((w', calls), stdout))
    ∧ loopRecord MustParse (config.Load TrimSpace dotenv env)
        (config.RepoURLs (config.Load TrimSpace dotenv env)) r calls.
Proof.
  unfold main. cbv zeta. unfold mbind, IO_bind.
  destruct (forRange_record (config.Load TrimSpace dotenv env)
              (config.RepoURLs (config.Load TrimSpace dotenv env)) w [] [])
    as (r & w' & delta & out & -> & Hloop).
  destruct r as [v|[]]; [by eexists _, _, _, _|].
  unfold print. by eexists _, _, _, _.
Qed.

(** X8. When the four quantity texts of the configuration parse, [main]
    does not panic and clones every configured repository once, in the
    configured order, from base URL + "/" + name at the configured branch,
    whatever fails for the repositories before it. *)
Theorem main_clones_every_repository dotenv env w rc :
  parsedFrom MustParse (config.Load TrimSpace dotenv env) rc →
  ∃ w' calls stdout,
    main (git:=recording G) TrimSpace filepath_Join MustParse dotenv env ((w, []), [])
    = (inr (), ((w', calls), stdout))
    ∧ clones calls
      = (λ url, (config.BaseURL (config.Load TrimSpace dotenv env) +:+ "/" +:+ url,
                 config.Branch (config.Load TrimSpace dotenv env)))
        <$> config.RepoURLs (config.Load TrimSpace dotenv env).
Proof.
  intros Hrc.
  destruct (main_record dotenv env w)
    as (r & w' & calls & out & Hmain & (done & _ & Hclones & Hall) & _ & _ & _ & Hok).
  rewrite (Hok (ex_intro _ rc Hrc)) in *.
  exists w', calls, out. split; [done|]. by rewrite Hclones, Hall.
Qed.

(** X9. In every run of [main], whatever the world does, the data of
    each [Write] call is the bytes that [Patch] returned with a nil error
    for the quantities parsed from the configuration, and there are never
    more [Push] calls than [Write] calls. *)
Theorem main_writes_patch_output dotenv env w :
  ∃ r w' calls stdout,
    main (git:=recording G) TrimSpace filepath_Join MustParse dotenv env ((w, []), [])
    = (r, ((w', calls), stdout))
    ∧ Forall (λ data, ∃ file rc out,
                parsedFrom MustParse (config.Load TrimSpace dotenv env) rc
                ∧ Patch file rc = (out, (Some data, None)))
             (writes calls)
    ∧ length (pushes calls) ≤ length (writes calls).
Proof.
  destruct (main_record dotenv env w)
    as (r & w' & calls & out & Hmain & _ & Hwr & Hpush & _).
  by exists r, w', calls, out.
Qed.

(** X10. In every run of [main], panics included, each file handed out by
    [Open] or [Create] is closed: the record has as many [Close] calls as
    successful [Open] and [Create] calls. *)
Theorem main_closes_every_file dotenv env w :
  ∃ r w' calls stdout,
    main (git:=recording G) TrimSpace filepath_Join MustParse dotenv env ((w, []), [])
    = (r, ((w', calls), stdout))
    ∧ length (closes calls) = length (handles calls).
Proof.
  destruct (main_record dotenv env w)
    as (r & w' & calls & out & Hmain & _ & _ & _ & Hclose & _).
  exists r, w', calls, out. by rewrite Hclose.
Qed.

(** X11. When one of the four quantity texts does not parse, [main] never
    writes and never pushes, for any repository. *)
Theorem main_bad_quantity_writes_nothing dotenv env w :
  (¬ ∃ rc, parsedFrom MustParse (config.Load TrimSpace dotenv env) rc) →
  ∃ r w' calls stdout,
    main (git:=recording G) TrimSpace filepath_Join MustParse dotenv env ((w, []), [])
    = (r, ((w', calls), stdout))
    ∧ writes calls = [] ∧ pushes calls = [].
Proof.
  intros Hbad.
  destruct (main_record dotenv env w)
    as (r & w' & calls & out & Hmain & _ & Hwr & Hpush & _).
  exists r, w', calls, out. split; [done|].
  assert (writes calls = []) as Hnone.
  { destruct (writes calls) as [|data datas]; [done|].
    apply Forall_cons in Hwr as [(file & rc & o & Hrc & _) _].
    destruct Hbad. by exists rc. }
  split; [done|]. rewrite Hnone in Hpush. simpl in Hpush.
  by destruct (pushes calls); [|simpl in Hpush; lia].
Qed.

End main_facts.

(** One repository that cannot be cloned, one that can. *)
Lemma main_clones_every_repository_witness :
  ∃ calls stdout,
    main (git:=recording playground.git) (yaml:=fixture.codec) asciiTrimSpace
      playground.pathJoin playground.MustParse playground.dotenv playground.env
      (((), []), [])
    = (inr (), (((), calls), stdout))
    ∧ clones calls = [("https://git.example.com/missing", "main");
                      ("https://git.example.com/app", "main")].
Proof.
  destruct (main_clones_every_repository playground.git (yaml:=fixture.codec)
              asciiTrimSpace playground.pathJoin playground.MustParse
              playground.dotenv playground.env () fixture.resCfg)
    as ([] & calls & stdout & Hmain & Hclones).
  - vm_compute. repeat split; reflexivity.
  - exists calls, stdout. split; [exact Hmain|]. rewrite Hclones.
    vm_compute. reflexivity.
Defined.

(** The same world with a CPU limit in the environment that is no
    quantity; it hides the one of the file. *)
Lemma main_bad_quantity_writes_nothing_witness :
  ∃ r calls stdout,
    main (git:=recording playground.git) (yaml:=fixture.codec) asciiTrimSpace
      playground.pathJoin playground.MustParse playground.dotenv
      (<["CPU_LIMIT" := "lots"]> playground.env) (((), []), [])
    = (r, (((), calls), stdout))
    ∧ writes calls = [] ∧ pushes calls = [].
Proof.
  destruct (main_bad_quantity_writes_nothing playground.git (yaml:=fixture.codec)
              asciiTrimSpace playground.pathJoin playground.MustParse
              playground.dotenv (<["CPU_LIMIT" := "lots"]> playground.env) ())
    as (r & [] & calls & stdout & Hmain & Hw & Hp).
  - intros (rc & _ & _ & Hlimit & _). vm_compute in Hlimit. discriminate Hlimit.
  - exists r, calls, stdout. split; [exact Hmain|]. split; [exact Hw|exact Hp].
Defined.

(** ** The two mains and a repository that cannot be cloned *)

Section clone_failure.
Context {W Repository Worktree File : Type}.
Context (G : GoGit W Repository Worktree File).
Context {yaml : YAML}.
Variable filepath_Join : list string → string.
Variable MustParse : string → string + Quantity.

(** X12. When the clone of a repository fails, the loop of cmd/main.go
    prints the failure and goes on with the remaining repositories, while
    the loop of the single-file main panics with the error there and then:
    none of the remaining repositories is touched. *)
Theorem clone_failure_continue_or_panic cfg url rest w w1 err calls stdout :
  git_Clone (config.BaseURL cfg +:+ "/" +:+ url) (config.Branch cfg) w
  = (inl err, w1) →
  let header := "======== Processing Repository: " +:+ url +:+ " ========" +:+ LF in
  let clone := CallClone (config.BaseURL cfg +:+ "/" +:+ url) (config.Branch cfg) in
  forRange (url :: rest)
    (processRepository (git:=recording G) filepath_Join MustParse cfg)
    ((w, calls), stdout)
  = forRange rest
      (processRepository (git:=recording G) filepath_Join MustParse cfg)
      ((w1, calls ++ [clone]),
       stdout ++ [header] ++ ["Failed to clone repo: " +:+ err +:+ LF])
  ∧ forRange (url :: rest)
      (processRepositoryInline (git:=recording G) filepath_Join MustParse cfg)
      ((w, calls), stdout)
    = (inl err, ((w1, calls ++ [clone]), stdout ++ [header])).
Proof.
  intros Hclone header clone. split.
  - cbn [forRange].
    unfold processRepository, mbind, IO_bind, print, call, CloneAndWorktree.
    cbn [recording git_Clone]. unfold recorded. rewrite Hclone.
    by rewrite <-app_assoc.
  - cbn [forRange].
    unfold processRepositoryInline, mbind, IO_bind, print, call, panic.
    cbn [recording git_Clone]. unfold recorded. by rewrite Hclone.
Qed.

End clone_failure.

Lemma clone_failure_continue_or_panic_witness :
  let cfg := config.Load asciiTrimSpace playground.dotenv playground.env in
  forRange ["missing"; "app"]
    (processRepositoryInline (git:=recording playground.git)
       (yaml:=fixture.codec) playground.pathJoin playground.MustParse cfg)
    (((), []), [])
  = (inl "repository not found",
     (((), [CallClone "https://git.example.com/missing" "main"]),
      ["======== Processing Repository: missing ========" +:+ LF])).
Proof.
  intros cfg.
  exact (proj2 (clone_failure_continue_or_panic playground.git
                  (yaml:=fixture.codec) playground.pathJoin playground.MustParse
                  cfg "missing" ["app"] () () "repository not found" [] []
                  eq_refl)).
Defined.

(** ** [updateResource] next to [Patch] *)

Section two_patchers.
Context {yaml : YAML}.

Lemma switchKind_unsupported kind file :
  kind ∉ supportedKinds →
  switchKind kind file = inl ([], failed ("Unsupported kind: " +:+ kind)).
Proof.
  unfold supportedKinds. rewrite !not_elem_of_cons. intros (?&?&?&?&?&_).
  unfold switchKind. by rewrite !decide_False.
Qed.

(** What [updateResource] does with a manifest that says it is a Pod. *)
Lemma updateResource_Pod_run file rc found :
  Unmarshal_typeMeta file = inr found →
  default "" found = "Pod" →
  updateResource file rc
  = match Unmarshal TPod file with
    | inl err => (["Unmarshal error: " +:+ err +:+ LF], failed err)
    | inr pod =>
        match Containers (pod_Spec pod) with
        | [] => ([], failed "No containers found in Pod")
        | c0 :: rest =>
            match Marshal Nil with
            | inl err =>
                (notice "Pod" (c0 :: rest)
                 ++ ["YAML marshal error: " +:+ err +:+ LF], failed err)
            | inr v => (notice "Pod" (c0 :: rest), ok v)
            end
        end
    end.
Proof.
  intros Hk Hn. unfold updateResource. rewrite getK8SKind_getKind.
  rewrite (getKind_found _ _ Hk), Hn. cbv beta iota.
  change "Pod" with (kindName TPod). rewrite switchKind_kindName.
  unfold switchArm, unmarshalK8sResource.
  destruct (Unmarshal TPod file) as [err|pod]; [done|].
  cbn [containers manifest load containersOf Spec_Containers].
  by destruct (Containers (pod_Spec pod)).
Qed.

(** X13. For a manifest whose kind is Pod, what [updateResource] prints
    and returns does not depend on the quantities it is given. *)
Theorem updateResource_Pod_ignores_quantities file found rc rc' :
  Unmarshal_typeMeta file = inr found →
  default "" found = "Pod" →
  updateResource file rc = updateResource file rc'.
Proof.
  intros Hk Hn.
  by rewrite (updateResource_Pod_run file rc found Hk Hn),
             (updateResource_Pod_run file rc' found Hk Hn).
Qed.

(** X14. For every input whose kind is not Pod, [updateResource] and
    [Patch] hand back the same bytes, and one returns an error exactly when
    the other does. *)
Theorem updateResource_agrees_with_Patch file rc :
  (getKind file).1 ≠ "Pod" →
  (updateResource file rc).2.1 = (Patch file rc).2.1
  ∧ (is_Some (updateResource file rc).2.2 ↔ is_Some (Patch file rc).2.2).
Proof.
  intros Hkind.
  assert (∀ e e' : error, is_Some (Some e) ↔ is_Some (Some e')) as Hboth
    by (intros; split; intros _; by eexists).
  destruct (Unmarshal_typeMeta file) as [err|found] eqn:Hk.
  { rewrite (Patch_getKind_error _ _ _ Hk).
    unfold updateResource. rewrite getK8SKind_getKind, (getKind_error _ _ Hk).
    simpl. by split. }
  rewrite (getKind_found _ _ Hk) in Hkind. simpl in Hkind.
  destruct (decide (default "" found ∈ supportedKinds)) as [Hin|Hout].
  2:{ rewrite (Patch_unsupported _ _ _ Hk Hout).
      unfold updateResource. rewrite getK8SKind_getKind, (getKind_found _ _ Hk).
      cbv beta iota. rewrite (switchKind_unsupported _ _ Hout). simpl.
      by split. }
  apply supported_kindName in Hin as [T Hn].
  assert (T ≠ TPod) as HT by (intros ->; by rewrite Hn in Hkind).
  unfold updateResource. rewrite getK8SKind_getKind, (getKind_found _ _ Hk), Hn.
  cbv beta iota. rewrite switchKind_kindName.
  unfold switchArm, unmarshalK8sResource.
  destruct (Unmarshal T file) as [err|obj] eqn:Hu.
  { rewrite (Patch_extract_error _ _ _ _ _ Hk Hn Hu). simpl. by split. }
  cbn [containers manifest].
  destruct (load (containersOf T) obj) as [|c0 rest] eqn:Hl.
  { rewrite (Patch_no_containers _ _ _ _ _ Hk Hn Hu Hl). simpl. by split. }
  rewrite (Patch_marshals _ _ _ _ _ _ _ Hk Hn Hu Hl).
  unfold withResources. rewrite Hl. cbn [patchFirst].
  destruct T; try done;
    match goal with
    | |- context [Marshal ?a] => destruct (Marshal a); simpl; by split
    end.
Qed.

(** X15. Whatever the number of containers, the object [Patch] encodes
    has as many containers as the decoded one, with the new resources at
    index 0 and the decoded container at every other index; the warning
    is printed exactly when there are two containers or more. *)
Theorem Patch_rewrites_index_0_only T file rc found (obj : GoStruct T) :
  Unmarshal_typeMeta file = inr found →
  default "" found = kindName T →
  Unmarshal T file = inr obj →
  load (containersOf T) obj ≠ [] →
  ∃ obj' : GoStruct T,
    Patch file rc
    = (if bool_decide (2 ≤ length (load (containersOf T) obj))
       then [warning (kindName T)] else [],
       returned (Marshal (Ptr T obj')))
    ∧ length (load (containersOf T) obj') = length (load (containersOf T) obj)
    ∧ Resources <$> load (containersOf T) obj' !! 0 = Some (newResources rc)
    ∧ ∀ i, 1 ≤ i →
           load (containersOf T) obj' !! i = load (containersOf T) obj !! i.
Proof.
  intros Hk Hn Hu Hne.
  destruct (load (containersOf T) obj) as [|c0 rest] eqn:Hl; [done|].
  exists (withResources T (newResources rc) obj).
  rewrite (Patch_marshals _ _ _ _ _ _ _ Hk Hn Hu Hl).
  rewrite (withResources_containers _ _ _ _ _ Hl).
  repeat split.
  intros [|i] Hi; [lia|done].
Qed.

Lemma kindName_inj T T' : kindName T = kindName T' → T = T'.
Proof. by destruct T, T'. Qed.

(** X16. [Patch] prints the multi-container warning, once and with
    nothing else, exactly when the manifest decodes at a supported kind
    with two containers or more, whether or not the encoder then fails;
    on every other path it prints nothing. *)
Theorem Patch_prints_only_the_warning file rc :
  (∃ found T (obj : GoStruct T),
      Unmarshal_typeMeta file = inr found
      ∧ default "" found = kindName T
      ∧ Unmarshal T file = inr obj
      ∧ 2 ≤ length (load (containersOf T) obj)
      ∧ (Patch file rc).1 = [warning (kindName T)])
  ∨ ((¬ ∃ found T (obj : GoStruct T),
          Unmarshal_typeMeta file = inr found
          ∧ default "" found = kindName T
          ∧ Unmarshal T file = inr obj
          ∧ 2 ≤ length (load (containersOf T) obj))
     ∧ (Patch file rc).1 = []).
Proof.
  destruct (Patch_run file rc)
    as [err Hk|found Hk Hout|found T err Hk Hn Hu|found T obj Hk Hn Hu Hl
       |found T obj c0 rest Hk Hn Hu Hl].
  - right. split; [|done]. intros (found' & T' & obj' & Hk' & _). congruence.
  - right. split; [|done]. intros (found' & T' & obj' & Hk' & Hn' & _).
    assert (found' = found) as -> by congruence.
    apply Hout. rewrite Hn'. apply kindName_supported.
  - right. split; [|done]. intros (found' & T' & obj' & Hk' & Hn' & Hu' & _).
    assert (found' = found) as -> by congruence.
    assert (T' = T) as -> by (apply kindName_inj; congruence).
    congruence.
  - right. split; [|done].
    intros (found' & T' & obj' & Hk' & Hn' & Hu' & Hlen).
    assert (found' = found) as -> by congruence.
    assert (T' = T) as -> by (apply kindName_inj; congruence).
    assert (obj' = obj) as -> by congruence.
    rewrite Hl in Hlen. simpl in Hlen. lia.
  - unfold notice. case_bool_decide as Hlen.
    + left. exists found, T, obj. rewrite Hl. simpl in *.
      repeat split; [done..|lia].
    + right. split; [|done].
      intros (found' & T' & obj' & Hk' & Hn' & Hu' & Hlen').
      assert (found' = found) as -> by congruence.
      assert (T' = T) as -> by (apply kindName_inj; congruence).
      assert (obj' = obj) as -> by congruence.
      rewrite Hl in Hlen'. simpl in *. lia.
Qed.

End two_patchers.

Lemma updateResource_Pod_ignores_quantities_witness :
  updateResource (yaml:=fixture.codec) fixture.podYAML fixture.resCfg
  = updateResource (yaml:=fixture.codec) fixture.podYAML
      {| CPURequest := "1"; MemRequest := "1Gi"; CPULimit := "2"; MemLimit := "2Gi" |}.
Proof.
  apply (updateResource_Pod_ignores_quantities (yaml:=fixture.codec)
           fixture.podYAML (Some "Pod")).
  - vm_compute. reflexivity.
  - reflexivity.
Defined.

Lemma updateResource_agrees_with_Patch_witness :
  (updateResource (yaml:=fixture.codec) fixture.sidecarYAML fixture.resCfg).2.1
  = (Patch (yaml:=fixture.codec) fixture.sidecarYAML fixture.resCfg).2.1.
Proof.
  apply (updateResource_agrees_with_Patch (yaml:=fixture.codec)
           fixture.sidecarYAML fixture.resCfg).
  vm_compute. discriminate.
Defined.

Lemma Patch_rewrites_index_0_only_witness :
  ∃ obj' : Workload,
    Patch (yaml:=fixture.codec) fixture.sidecarYAML fixture.resCfg
    = ([warning "Deployment"], returned (Marshal (YAML:=fixture.codec) (Ptr TDeployment obj')))
    ∧ Containers (template_Spec (Template (wl_Spec obj'))) !! 1
      = Some fixture.sidecar.
Proof.
  destruct (Patch_rewrites_index_0_only (yaml:=fixture.codec) TDeployment
              fixture.sidecarYAML fixture.resCfg (Some "Deployment")
              fixture.withSidecar)
    as (obj' & Hp & _ & _ & Hrest).
  - vm_compute. reflexivity.
  - reflexivity.
  - vm_compute. reflexivity.
  - discriminate.
  - exists obj'. split; [exact Hp|]. exact (Hrest 1 (le_n 1)).
Defined.

(** ** The single-file main on a Pod manifest *)

Section pod_manifest.
Context {W Repository Worktree File : Type}.
Context (G : GoGit W Repository Worktree File).
Context {yaml : YAML}.
Variable filepath_Join : list string → string.
Variable MustParse : string → string + Quantity.

(** X17. In the single-file main, when a repository is cloned, its
    manifest is read, the quantities parse, the manifest is a Pod with at
    least one container and the file can be created, the one [Write] call
    of that turn carries the encoding of nil and not a Pod. *)
Theorem single_file_main_writes_nil_for_Pod cfg url rc w w1 w2 w3 w4 w5
    repo worktree file f f' found (pod : Pod) null calls stdout :
  let targetPath :=
    filepath_Join ["overlays"; config.Env cfg; "patches"; "set_resources.yaml"] in
  git_Clone (config.BaseURL cfg +:+ "/" +:+ url) (config.Branch cfg) w
  = (inr repo, w1) →
  Repository_Worktree repo w1 = (inr worktree, w2) →
  Filesystem_Open worktree targetPath w2 = (inr f, w3) →
  io_ReadAll f w3 = (inr file, w4) →
  parsedFrom MustParse cfg rc →
  Unmarshal_typeMeta file = inr found →
  default "" found = "Pod" →
  Unmarshal TPod file = inr pod →
  Containers (pod_Spec pod) ≠ [] →
  Marshal Nil = inr null →
  Filesystem_Create worktree targetPath (File_Close f w4) = (inr f', w5) →
  ∃ r w' delta stdout',
    processRepositoryInline (git:=recording G) filepath_Join MustParse cfg url
      ((w, calls), stdout)
    = (r, ((w', calls ++ delta), stdout'))
    ∧ writes delta = [null].
Proof.
  intros targetPath Hclone Hwt Hopen Hread (Hq1 & Hq2 & Hq3 & Hq4)
    Hk Hn Hu Hcs Hnil Hcreate.
  unfold processRepositoryInline, getFile, mbind, IO_bind, print, printed,
    call, mustParse, panic, mret, IO_ret.
  cbn [recording git_Clone Repository_Worktree Worktree_Add Worktree_Commit
       Repository_Push Filesystem_Open Filesystem_Create io_ReadAll
       File_Write File_Close].
  unfold recorded. fold targetPath.
  rewrite Hclone, Hwt, Hopen, Hread, Hq1, Hq2, Hq3, Hq4.
  rewrite (updateResource_Pod_run file _ found Hk Hn), Hu, Hnil.
  destruct (Containers (pod_Spec pod)) as [|c0 rest]; [done|].
  unfold ok. rewrite Hcreate.
  repeat (case_match; simplify_eq/=);
    rewrite <-?app_assoc; simpl;
    by eexists _, _, _, _.
Qed.

End pod_manifest.

Lemma single_file_main_writes_nil_for_Pod_witness :
  let cfg := config.Load asciiTrimSpace playground.dotenv playground.env in
  ∃ r delta stdout,
    processRepositoryInline (git:=recording (playground.world fixture.podYAML))
      (yaml:=fixture.codec) playground.pathJoin playground.MustParse cfg "app"
      (((), []), [])
    = (r, (((), [] ++ delta), stdout))
    ∧ writes delta = ["null" +:+ LF].
Proof.
  intros cfg.
  destruct (single_file_main_writes_nil_for_Pod
              (playground.world fixture.podYAML) (yaml:=fixture.codec)
              playground.pathJoin playground.MustParse cfg "app" fixture.resCfg
              () () () () () ()
              "https://git.example.com/app" "https://git.example.com/app"
              fixture.podYAML
              "overlays/dev/patches/set_resources.yaml"
              "overlays/dev/patches/set_resources.yaml"
              (Some "Pod") fixture.pod ("null" +:+ LF) [] [])
    as (r & [] & delta & stdout & Hrun & Hw);
    try (vm_compute; reflexivity).
  - vm_compute. repeat split; reflexivity.
  - discriminate.
  - exists r, delta, stdout. split; [exact Hrun|exact Hw].
Defined.

(** ** gitops.go: what the calls leave in the record *)

Section gitops_facts.
Context {W Repository Worktree File : Type}.
Context (G : GoGit W Repository Worktree File).

(** X18. [CommitAndPush] stages the file, commits with the fixed message
    and author, and pushes, in this order, and stops at the first call
    that returns an error: every call before the last one made returned
    nil, and what [CommitAndPush] returns is what its last call
    returned. *)
Theorem CommitAndPush_record repo worktree filePath w calls :
  let add := CallAdd filePath in
  let commit := CallCommit "Update set_resources.yaml via automation"
                  "AutoUpdater" "autoupdater@example.com" in
  ∃ err w' delta,
    CommitAndPush (git:=recording G) repo worktree filePath (w, calls)
    = (err, (w', calls ++ delta))
    ∧ (delta = [add None; commit None; CallPush err]
       ∨ is_Some err ∧ delta = [add None; commit err]
       ∨ is_Some err ∧ delta = [add err]).
Proof.
  intros add commit. unfold CommitAndPush.
  cbn [recording Worktree_Add Worktree_Commit Repository_Push]. unfold recorded.
  repeat (case_match; simplify_eq/=); rewrite <-?app_assoc; simpl;
    eexists _, _, _; (split; [reflexivity|]);
    first [ by left
          | by right; left; split; [eexists|]
          | by right; right; split; [eexists|] ].
Qed.

(** X19. [GetFile] makes either one failed [Open] call, or a successful
    [Open], one [ReadAll] and one [Close]: the file it opened is closed
    whether reading worked or not. *)
Theorem GetFile_record worktree path w calls :
  ∃ r w' delta,
    GetFile (git:=recording G) worktree path (w, calls)
    = (r, (w', calls ++ delta))
    ∧ (delta = [CallOpen path false] ∧ succeeded r = false
       ∨ delta = [CallOpen path true; CallReadAll; CallClose]).
Proof.
  unfold GetFile.
  cbn [recording Filesystem_Open io_ReadAll File_Close]. unfold recorded.
  repeat (case_match; simplify_eq/=); rewrite <-?app_assoc; simpl;
    eexists _, _, _; (split; [reflexivity|]); auto.
Qed.

End gitops_facts.

(** ** The pagination loop *)

Section pagination.
Context {W : Type} {gitlab : GitLab W}.

Lemma listPages_Serves groupID page w pages w' fuel allProjects :
  Serves groupID page w pages w' →
  length pages ≤ fuel →
  listPages fuel groupID page allProjects w
  = Some (inr (allProjects ++ concat pages), w').
Proof.
  intros Hserves. revert fuel allProjects.
  induction Hserves as [page w projects w' Hlast
                       |page w projects nextPage w1 pages w' Hnext Hne _ IH];
    intros fuel allProjects Hfuel.
  - destruct fuel as [|fuel]; [simpl in Hfuel; lia|].
    simpl. rewrite Hlast. simpl. by rewrite app_nil_r.
  - destruct fuel as [|fuel]; [simpl in Hfuel; lia|].
    simpl in *. rewrite Hnext. rewrite decide_False by done.
    rewrite IH by lia. by rewrite app_assoc.
Qed.

Lemma urlsStr_Join allProjects :
  urlsStr allProjects = Join (PathWithNamespace <$> allProjects) ",".
Proof. unfold urlsStr. by rewrite foldl_snoc_fmap. Qed.

(** X20. Against a server that answers page after page until a page with
    no next page, the loop, given room for that many requests, stops and
    has gathered the projects of all pages in the order served; the .env
    file is then rewritten with their paths joined by commas as
    REPO_URLS. *)
Theorem listAndUpdate_gathers_all_pages groupID w pages w' fuel input :
  Serves groupID 0 w pages w' →
  length pages ≤ fuel →
  listPages fuel groupID 0 [] w = Some (inr (concat pages), w')
  ∧ listAndUpdate fuel groupID (Read input) None w
    = Some (inr (envOutput "REPO_URLS"
                   (Join (PathWithNamespace <$> concat pages) ",") input), w').
Proof.
  intros Hserves Hfuel.
  pose proof (listPages_Serves groupID 0 w pages w' fuel [] Hserves Hfuel)
    as Hlist.
  simpl in Hlist. split; [exact Hlist|].
  unfold listAndUpdate. rewrite Hlist. simpl. by rewrite urlsStr_Join.
Qed.

(** When a request fails, the loop ends with the fatal message, however
    many pages came before. *)
Lemma listPages_fatal groupID fuel page allProjects w w' err :
  ListGroupProjects groupID page 100 w = (inl err, w') →
  listPages (S fuel) groupID page allProjects w
  = Some (inl ("Failed to list projects: " +:+ err), w').
Proof. intros Hfail. simpl. by rewrite Hfail. Qed.

End pagination.

Lemma listAndUpdate_gathers_all_pages_witness :
  listAndUpdate (gitlab:=playground.gitlab) 5 "12345"
    (Read ("ENV=dev" +:+ LF +:+ "REPO_URLS=old" +:+ LF)) None ()
  = Some (inr ("ENV=dev" +:+ LF +:+ "REPO_URLS=group/app,group/api,group/web"
               +:+ LF), ()).
Proof.
  refine (proj2 (listAndUpdate_gathers_all_pages (gitlab:=playground.gitlab)
                   "12345" ()
                   [[ {| PathWithNamespace := "group/app" |};
                      {| PathWithNamespace := "group/api" |} ];
                    [ {| PathWithNamespace := "group/web" |} ]]
                   () 5 ("ENV=dev" +:+ LF +:+ "REPO_URLS=old" +:+ LF) _ _)).
  - eapply serves_next; [reflexivity|discriminate|].
    apply serves_last. reflexivity.
  - simpl. lia.
Defined.
